(** * MathMaster calculator: the state machine of [client/src/pages/calculator.tsx]

    The calculator component keeps one [CalculatorState] and three further
    pieces of React state ([showHistory], [error], [previousCalculation]).
    Every handler is [setState(prev => ...)] with calls to [addToHistory],
    [setError], [showError] and [setPreviousCalculation] made from inside the
    updater.  The development embeds

    - JavaScript numbers as IEEE 754 binary64 values ([SpecFloat.spec_float]
      at precision 53 and maximal exponent 1024), with [parseFloat] and
      [Number.prototype.toString] written out over them;
    - updaters as functions into a small monad that logs the calls an updater
      makes and carries a thrown [Error];
    - handlers as functions from the component (and the clock) to a
      completion: the next component, or the exception that left the handler;
    - the page: the component together with React's note of whether an
      update is pending, which decides whether an updater runs at once, in
      the call of [setState], or later, in the render.
*)

From Stdlib Require Import ZArith List Bool Ascii String Lia.
From Stdlib Require Import Floats.SpecFloat.
Import ListNotations.

Local Open Scope string_scope.

(* ------------------------------------------------------------------ *)
(** ** JavaScript numbers

    The built-ins the component calls, after ECMA-262: arithmetic and
    comparison of Number values, [parseFloat] and [Number.prototype.toString]
    in radix 10.  A literal with more than 20 significant digits is rounded
    to the nearest Number as well (the standard also allows an engine to cut
    it at the 20th digit first). *)

Module JS.

Local Open Scope Z_scope.

Definition prec : Z := 53.
Definition emax : Z := 1024.

(** A Number value: binary64 with a single NaN. *)
Definition number : Type := spec_float.

Definition NaN : number := S754_nan.

(** [a + b], [a - b], [a * b], [a / b], [Math.sqrt(a)] *)
Definition add (a b : number) : number := SFadd prec emax a b.
Definition sub (a b : number) : number := SFsub prec emax a b.
Definition mul (a b : number) : number := SFmul prec emax a b.
Definition div (a b : number) : number := SFdiv prec emax a b.
Definition sqrt (a : number) : number := SFsqrt prec emax a.

(** [a < b], [a <= b] and [a === b] on numbers: false as soon as one side
    is NaN, and the two zeros are equal. *)
Definition lt (a b : number) : bool := SFltb a b.
Definition le (a b : number) : bool := SFleb a b.
Definition strict_eq (a b : number) : bool := SFeqb a b.

Definition isNaN (a : number) : bool :=
  match a with S754_nan => true | _ => false end.

Definition isFinite (a : number) : bool :=
  match a with S754_zero _ | S754_finite _ _ _ => true | _ => false end.

(** The Number value of the rational [num / den], rounded to nearest, ties
    to even; [neg] is the sign. *)
Definition of_ratio (neg : bool) (num den : positive) : number :=
  let '(q, e, l) := SFdiv_core_binary prec emax (Zpos num) 0 (Zpos den) 0 in
  binary_round_aux prec emax neg q e l.

(** The Number value of [m * 10^e10] for a natural [m]. *)
Definition of_decimal (neg : bool) (m : Z) (e10 : Z) : number :=
  match m with
  | Zpos p =>
      if 0 <=? e10
      then of_ratio neg (p * Z.to_pos (10 ^ e10)) 1
      else of_ratio neg p (Z.to_pos (10 ^ (- e10)))
  | _ => S754_zero neg
  end.

(** A numeric literal of the source, such as [0] or [100]. *)
Definition of_Z (z : Z) : number :=
  of_decimal (z <? 0) (Z.abs z) 0.

(** The rational value [num / den] of a positive finite number. *)
Definition ratio_of (m : positive) (e : Z) : positive * positive :=
  match e with
  | Zneg k => (m, Pos.shiftl 1 (Npos k))
  | _ => (Z.to_pos (Zpos m * 2 ^ e), 1%positive)
  end.

(** *** Text of numbers *)

Definition is_digit (c : ascii) : bool :=
  ((48 <=? N_of_ascii c) && (N_of_ascii c <=? 57))%N.

Definition digit_value (c : ascii) : Z := Z.of_N (N_of_ascii c) - 48.

Definition digit_char (d : Z) : ascii := ascii_of_N (48 + Z.to_N (d mod 10)).

(** The longest prefix of decimal digits, and what follows it. *)
Fixpoint span_digits (s : string) : string * string :=
  match s with
  | String c r =>
      if is_digit c
      then let '(ds, rest) := span_digits r in (String c ds, rest)
      else (EmptyString, s)
  | EmptyString => (EmptyString, EmptyString)
  end.

(** The mathematical value of a run of decimal digits. *)
Fixpoint digits_value (acc : Z) (s : string) : Z :=
  match s with
  | String c r => digits_value (10 * acc + digit_value c) r
  | EmptyString => acc
  end.

Fixpoint to_digits (fuel : nat) (z : Z) (acc : string) : string :=
  match fuel with
  | O => acc
  | S f =>
      let acc' := String (digit_char z) acc in
      if z <? 10 then acc' else to_digits f (z / 10) acc'
  end.

(** The decimal digits of a natural number, most significant first. *)
Definition decimal_string (z : Z) : string :=
  to_digits (S (Z.to_nat (Z.log2 z))) z EmptyString.

(** WhiteSpace and LineTerminator code points, as [parseFloat] trims them
    from the start of its argument (strings are held as UTF-8 bytes, so the
    code points above U+007F are two or three bytes long). *)
Definition is_ws1 (c : ascii) : bool :=
  let n := N_of_ascii c in
  ((n =? 9) || (n =? 10) || (n =? 11) || (n =? 12) || (n =? 13) || (n =? 32))%N.

Definition is_ws2 (c1 c2 : ascii) : bool :=
  ((N_of_ascii c1 =? 194) && (N_of_ascii c2 =? 160))%N.        (* U+00A0 *)

Definition is_ws3 (c1 c2 c3 : ascii) : bool :=
  let a := N_of_ascii c1 in
  let b := N_of_ascii c2 in
  let c := N_of_ascii c3 in
  (((a =? 225) && (b =? 154) && (c =? 128))                     (* U+1680 *)
   || ((a =? 226) && (b =? 128) && (128 <=? c) && (c <=? 138))  (* U+2000..U+200A *)
   || ((a =? 226) && (b =? 128) && ((c =? 168) || (c =? 169)))  (* U+2028, U+2029 *)
   || ((a =? 226) && (b =? 128) && (c =? 175))                  (* U+202F *)
   || ((a =? 226) && (b =? 129) && (c =? 159))                  (* U+205F *)
   || ((a =? 227) && (b =? 128) && (c =? 128))                  (* U+3000 *)
   || ((a =? 239) && (b =? 187) && (c =? 191)))%N.              (* U+FEFF *)

Fixpoint trim_start (s : string) : string :=
  match s with
  | String c1 r1 =>
      if is_ws1 c1 then trim_start r1
      else
        match r1 with
        | String c2 r2 =>
            if is_ws2 c1 c2 then trim_start r2
            else
              match r2 with
              | String c3 r3 => if is_ws3 c1 c2 c3 then trim_start r3 else s
              | EmptyString => s
              end
        | EmptyString => s
        end
  | EmptyString => s
  end.

(** The value of an ExponentPart at the start of [s], 0 when there is none
    (an [e] that no digit follows is not part of the literal). *)
Definition exponent_part (s : string) : Z :=
  match s with
  | String c r =>
      if (Ascii.eqb c "e" || Ascii.eqb c "E")%bool
      then
        let '(neg, r') :=
          match r with
          | String "-"%char t => (true, t)
          | String "+"%char t => (false, t)
          | _ => (false, r)
          end in
        let '(ds, _) := span_digits r' in
        match ds with
        | EmptyString => 0
        | _ => if neg then - digits_value 0 ds else digits_value 0 ds
        end
      else 0
  | EmptyString => 0
  end.

(** [parseFloat(s)]: trim, then read the longest prefix that is a
    StrDecimalLiteral; NaN when there is none.  The literal's value is
    rounded to the nearest Number. *)
Definition parseFloat (s : string) : number :=
  let t := trim_start s in
  let '(neg, u) :=
    match t with
    | String "-"%char r => (true, r)
    | String "+"%char r => (false, r)
    | _ => (false, t)
    end in
  if String.prefix "Infinity" u then S754_infinity neg
  else
    let '(ip, r1) := span_digits u in
    let '(fp, r2) :=
      match r1 with
      | String "."%char r => span_digits r
      | _ => (EmptyString, r1)
      end in
    match ip, fp with
    | EmptyString, EmptyString => NaN
    | _, _ =>
        of_decimal neg (digits_value 0 (ip ++ fp))
                   (exponent_part r2 - Z.of_nat (String.length fp))
    end.

(** *** [Number.prototype.toString] *)

(** The position [n] of the decimal point of [num / den]:
    [10^(n-1) <= num/den < 10^n]. *)
Fixpoint count_up (fuel : nat) (num den : Z) (n : Z) : Z :=
  match fuel with
  | O => n
  | S f => if num <? den then n else count_up f num (10 * den) (n + 1)
  end.

Fixpoint count_down (fuel : nat) (num den : Z) (n : Z) : Z :=
  match fuel with
  | O => n
  | S f => if den <=? 10 * num then n else count_down f (10 * num) den (n - 1)
  end.

Definition point_position (num den : Z) : Z :=
  if den <=? num
  then count_up (S (Z.to_nat (Z.log2 num))) num den 0
  else count_down (S (Z.to_nat (Z.log2 den))) num den 0.

(** The candidates with [k] digits: the two integers [s] around
    [x / 10^p], where [p = n - k]; one is kept when [s * 10^p] is again [x],
    the nearer one when both are, the even one on a tie. *)
Definition candidate (x : number) (num den : Z) (p : Z) : option Z :=
  let N := if 0 <=? p then num else num * 10 ^ (- p) in
  let D := if 0 <=? p then den * 10 ^ p else den in
  let lo := N / D in
  let r := N mod D in
  let hi := lo + 1 in
  let ok_lo := (0 <? lo) && strict_eq (of_decimal false lo p) x in
  let ok_hi := strict_eq (of_decimal false hi p) x in
  match ok_lo, ok_hi with
  | true, true =>
      match 2 * r ?= D with
      | Lt => Some lo
      | Gt => Some hi
      | Eq => Some (if Z.even lo then lo else hi)
      end
  | true, false => Some lo
  | false, true => Some hi
  | false, false => None
  end.

(** Fewest digits first: [k = 1, 2, ...]; [p] is [n - k]. *)
Fixpoint shortest (fuel : nat) (x : number) (num den : Z) (p : Z) : Z * Z :=
  match fuel with
  | O => ((if 0 <=? p then num / (den * 10 ^ p) else num * 10 ^ (- p) / den), p)
  | S f =>
      match candidate x num den p with
      | Some s => (s, p)
      | None => shortest f x num den (p - 1)
      end
  end.

(** Drop the zeros at the end of [s], counting them into the exponent. *)
Fixpoint strip_zeros (fuel : nat) (s p : Z) : Z * Z :=
  match fuel with
  | O => (s, p)
  | S f =>
      if (0 <? s) && (s mod 10 =? 0)
      then strip_zeros f (s / 10) (p + 1)
      else (s, p)
  end.

Fixpoint zeros (n : nat) : string :=
  match n with
  | O => EmptyString
  | S m => String "0" (zeros m)
  end.

(** The digits [ds] (there are [k] of them) with the decimal point at [n],
    laid out as [Number::toString] does for radix 10. *)
Definition layout (ds : string) (n : Z) : string :=
  let k := Z.of_nat (String.length ds) in
  if (k <=? n) && (n <=? 21) then
    ds ++ zeros (Z.to_nat (n - k))
  else if (0 <? n) && (n <=? 21) then
    substring 0 (Z.to_nat n) ds ++ "."
      ++ substring (Z.to_nat n) (Z.to_nat (k - n)) ds
  else if (-6 <? n) && (n <=? 0) then
    "0." ++ zeros (Z.to_nat (- n)) ++ ds
  else
    let e := n - 1 in
    let es := (if e <? 0 then "-" else "+") ++ decimal_string (Z.abs e) in
    match ds with
    | String d EmptyString => String d ("e" ++ es)
    | String d rest => String d ("." ++ rest ++ "e" ++ es)
    | EmptyString => "e" ++ es
    end.

(** The text of a positive finite number. *)
Definition positive_to_string (m : positive) (e : Z) : string :=
  let x := S754_finite false m e in
  let '(num, den) := ratio_of m e in
  let n := point_position (Zpos num) (Zpos den) in
  let '(s, p) := shortest 17 x (Zpos num) (Zpos den) (n - 1) in
  let '(s', p') := strip_zeros 17 s p in
  let ds := decimal_string s' in
  layout ds (Z.of_nat (String.length ds) + p').

(** [x.toString()], also what a template literal makes of a number. *)
Definition toString (x : number) : string :=
  match x with
  | S754_nan => "NaN"
  | S754_zero _ => "0"
  | S754_infinity false => "Infinity"
  | S754_infinity true => "-Infinity"
  | S754_finite false m e => positive_to_string m e
  | S754_finite true m e => "-" ++ positive_to_string m e
  end.

(** Does the text begin with a decimal digit? *)
Definition starts_with_digit (s : string) : bool :=
  match s with
  | String c _ => is_digit c
  | EmptyString => false
  end.

End JS.

(* ------------------------------------------------------------------ *)
(** ** Updaters: logged calls and thrown errors *)

Inductive completion (A : Type) : Type :=
| Normal (a : A)
| Throw (message : string).
Arguments Normal {A} a.
Arguments Throw {A} message.

(** What an updater calls on the rest of the component. *)
Inductive call : Type :=
| AddToHistory (calculation result : string)
| SetPreviousCalculation (text : string)
| SetError (e : option string)
| ShowError (message : string).

Definition M (A : Type) : Type := (list call * completion A)%type.

Definition ret {A} (a : A) : M A := ([], Normal a).

Definition throw {A} (message : string) : M A := ([], Throw message).

Definition tell (k : call) : M unit := ([k], Normal tt).

Definition bind {A B} (m : M A) (f : A -> M B) : M B :=
  match m with
  | (log, Normal a) => let '(log', r) := f a in ((log ++ log')%list, r)
  | (log, Throw e) => (log, Throw e)
  end.

(** [try { body } catch (error) { handler(error.message) }] *)
Definition try_catch {A} (body : M A) (handler : string -> M A) : M A :=
  match body with
  | (log, Normal a) => (log, Normal a)
  | (log, Throw e) => let '(log', r) := handler e in ((log ++ log')%list, r)
  end.

Notation "x <- m ;; k" := (bind m (fun x => k))
  (at level 61, m at next level, right associativity).
Notation "m ;;; k" := (bind m (fun _ => k))
  (at level 61, right associativity).

(* ------------------------------------------------------------------ *)
(** ** The calculator *)

Record HistoryItem : Type := {
  calculation : string;
  result : string;
  timestamp : Z;          (* [new Date()], in milliseconds *)
}.

Record CalculatorState : Type := {
  currentValue : string;
  previousValue : string;
  operation : option string;      (* [string | null] *)
  memory : JS.number;
  history : list HistoryItem;
  waitingForNewValue : bool;
}.

(** The state [useState] starts from. *)
Definition initialState : CalculatorState := {|
  currentValue := "0";
  previousValue := "";
  operation := None;
  memory := JS.of_Z 0;
  history := [];
  waitingForNewValue := false;
|}.

(** A [string | null] in a condition: null and the empty string are falsy. *)
Definition truthy (o : option string) : bool :=
  match o with
  | Some s => negb (s =? "")
  | None => false
  end.

(** [symbols[op] || op], over the four keys the object literal has.  For
    the names [Object.prototype] has ([constructor], [toString], ...) the
    lookup finds an inherited member, not a string; no button and no key
    passes such a name, and they are left out here. *)
Definition getOperationSymbol (op : string) : string :=
  if op =? "+" then "+"
  else if op =? "-" then "-"
  else if op =? "*" then "Ã—"
  else if op =? "/" then "Ã·"
  else op.

Definition calculate (a b : JS.number) (operation : string) : M JS.number :=
  if operation =? "+" then ret (JS.add a b)
  else if operation =? "-" then ret (JS.sub a b)
  else if operation =? "*" then ret (JS.mul a b)
  else if operation =? "/" then
    if JS.strict_eq b (JS.of_Z 0) then throw "Cannot divide by zero"
    else ret (JS.div a b)
  else ret b.

(** The updater [addToHistory] hands to [setState]. *)
Definition addToHistory (historyItem : HistoryItem) (prev : CalculatorState)
  : CalculatorState := {|
  currentValue := currentValue prev;
  previousValue := previousValue prev;
  operation := operation prev;
  memory := memory prev;
  history := historyItem :: firstn 49 (history prev);   (* Keep last 50 *)
  waitingForNewValue := waitingForNewValue prev;
|}.

Definition handleNumber (num : string) (prev : CalculatorState)
  : M CalculatorState :=
  if waitingForNewValue prev then
    ret {| currentValue := num;
           previousValue := previousValue prev;
           operation := operation prev;
           memory := memory prev;
           history := history prev;
           waitingForNewValue := false |}
  else
    ret {| currentValue :=
             if currentValue prev =? "0" then num else currentValue prev ++ num;
           previousValue := previousValue prev;
           operation := operation prev;
           memory := memory prev;
           history := history prev;
           waitingForNewValue := waitingForNewValue prev |}.

Definition handleOperation (op : string) (prev : CalculatorState)
  : M CalculatorState :=
  let set_operator :=
    tell (SetPreviousCalculation
            (currentValue prev ++ " " ++ getOperationSymbol op)) ;;;
    ret {| currentValue := currentValue prev;
           previousValue := currentValue prev;
           operation := Some op;
           memory := memory prev;
           history := history prev;
           waitingForNewValue := true |} in
  match operation prev with
  | Some pending =>
      if truthy (Some pending) && negb (waitingForNewValue prev) then
        (* Perform calculation with previous operation *)
        result <- calculate (JS.parseFloat (previousValue prev))
                            (JS.parseFloat (currentValue prev)) pending ;;
        tell (SetPreviousCalculation
                (currentValue prev ++ " " ++ getOperationSymbol op)) ;;;
        ret {| currentValue := JS.toString result;
               previousValue := JS.toString result;
               operation := Some op;
               memory := memory prev;
               history := history prev;
               waitingForNewValue := true |}
      else set_operator
  | None => set_operator
  end.

(** [currentValue.indexOf('.') === -1] *)
Fixpoint has_point (s : string) : bool :=
  match s with
  | String c r => Ascii.eqb c "." || has_point r
  | EmptyString => false
  end.

Definition handleDecimal (prev : CalculatorState) : M CalculatorState :=
  if waitingForNewValue prev then
    ret {| currentValue := "0.";
           previousValue := previousValue prev;
           operation := operation prev;
           memory := memory prev;
           history := history prev;
           waitingForNewValue := false |}
  else if negb (has_point (currentValue prev)) then
    ret {| currentValue := currentValue prev ++ ".";
           previousValue := previousValue prev;
           operation := operation prev;
           memory := memory prev;
           history := history prev;
           waitingForNewValue := waitingForNewValue prev |}
  else ret prev.

Definition handleEquals (prev : CalculatorState) : M CalculatorState :=
  match operation prev with
  | Some pending =>
      if truthy (Some pending) && negb (previousValue prev =? "") then
        try_catch
          (result <- calculate (JS.parseFloat (previousValue prev))
                               (JS.parseFloat (currentValue prev)) pending ;;
           tell (AddToHistory
                   (previousValue prev ++ " " ++ getOperationSymbol pending
                      ++ " " ++ currentValue prev)
                   (JS.toString result)) ;;;
           tell (SetPreviousCalculation "") ;;;
           tell (SetError None) ;;;
           ret {| currentValue := JS.toString result;
                  previousValue := "";
                  operation := None;
                  memory := memory prev;
                  history := history prev;
                  waitingForNewValue := true |})
          (fun message => tell (ShowError message) ;;; ret prev)
      else ret prev
  | None => ret prev
  end.

(** The updater of [handleClear]. *)
Definition handleClear (prev : CalculatorState) : M CalculatorState :=
  ret {| currentValue := "0";
         previousValue := "";
         operation := None;
         memory := memory prev;
         history := history prev;
         waitingForNewValue := false |}.

Definition handleAdvancedOperation (operation_ : string) (prev : CalculatorState)
  : M CalculatorState :=
  let current := JS.parseFloat (currentValue prev) in
  try_catch
    (selected <-
       (if operation_ =? "percentage" then
          ret (Some (JS.div current (JS.of_Z 100), JS.toString current ++ "%"))
        else if operation_ =? "square-root" then
          if JS.lt current (JS.of_Z 0) then throw "Invalid input"
          else ret (Some (JS.sqrt current, "âˆš" ++ JS.toString current))
        else if operation_ =? "square" then
          ret (Some (JS.mul current current, JS.toString current ++ "Â²"))
        else ret None) ;;
     match selected with
     | None => ret prev
     | Some (result, calculationDisplay) =>
         tell (AddToHistory calculationDisplay (JS.toString result)) ;;;
         tell (SetError None) ;;;
         ret {| currentValue := JS.toString result;
                previousValue := previousValue prev;
                operation := operation prev;
                memory := memory prev;
                history := history prev;
                waitingForNewValue := true |}
     end)
    (fun message => tell (ShowError message) ;;; ret prev).

Definition handleMemoryOperation (operation_ : string) (prev : CalculatorState)
  : M CalculatorState :=
  let current := JS.parseFloat (currentValue prev) in
  if operation_ =? "memory-clear" then
    ret {| currentValue := currentValue prev;
           previousValue := previousValue prev;
           operation := operation prev;
           memory := JS.of_Z 0;
           history := history prev;
           waitingForNewValue := waitingForNewValue prev |}
  else if operation_ =? "memory-recall" then
    ret {| currentValue := JS.toString (memory prev);
           previousValue := previousValue prev;
           operation := operation prev;
           memory := memory prev;
           history := history prev;
           waitingForNewValue := true |}
  else if operation_ =? "memory-add" then
    ret {| currentValue := currentValue prev;
           previousValue := previousValue prev;
           operation := operation prev;
           memory := JS.add (memory prev) current;
           history := history prev;
           waitingForNewValue := waitingForNewValue prev |}
  else if operation_ =? "memory-subtract" then
    ret {| currentValue := currentValue prev;
           previousValue := previousValue prev;
           operation := operation prev;
           memory := JS.sub (memory prev) current;
           history := history prev;
           waitingForNewValue := waitingForNewValue prev |}
  else ret prev.

Definition clearHistory (prev : CalculatorState) : M CalculatorState :=
  ret {| currentValue := currentValue prev;
         previousValue := previousValue prev;
         operation := operation prev;
         memory := memory prev;
         history := [];
         waitingForNewValue := waitingForNewValue prev |}.

(** The updater of the [onClick] of a history entry. *)
Definition selectHistoryItem (item : HistoryItem) (prev : CalculatorState)
  : M CalculatorState :=
  ret {| currentValue := result item;
         previousValue := previousValue prev;
         operation := operation prev;
         memory := memory prev;
         history := history prev;
         waitingForNewValue := true |}.

(* ------------------------------------------------------------------ *)
(** ** The component *)

(** The four [useState] cells of [Calculator], and the [setTimeout]s that
    [showError] has started and that have not fired (their due times). *)
Record Component : Type := {
  state : CalculatorState;
  showHistory : bool;
  error : option string;
  previousCalculation : string;
  timers : list Z;
}.

Definition initialComponent : Component := {|
  state := initialState;
  showHistory := false;
  error := None;
  previousCalculation := "";
  timers := [];
|}.

Definition with_state (c : Component) (st : CalculatorState) : Component := {|
  state := st;
  showHistory := showHistory c;
  error := error c;
  previousCalculation := previousCalculation c;
  timers := timers c;
|}.

(** What a logged call does to the component at time [now]:
    [addToHistory] stamps the item and queues its updater, [showError] sets
    the message and starts the 3000 ms timer. *)
Definition perform (now : Z) (c : Component) (k : call) : Component :=
  match k with
  | AddToHistory calc res =>
      with_state c
        (addToHistory {| calculation := calc; result := res; timestamp := now |}
                      (state c))
  | SetPreviousCalculation text =>
      {| state := state c; showHistory := showHistory c; error := error c;
         previousCalculation := text; timers := timers c |}
  | SetError e =>
      {| state := state c; showHistory := showHistory c; error := e;
         previousCalculation := previousCalculation c; timers := timers c |}
  | ShowError message =>
      {| state := state c; showHistory := showHistory c; error := Some message;
         previousCalculation := previousCalculation c;
         timers := (timers c ++ [(now + 3000)%Z])%list |}
  end.

(** [setState(updater)] when React queues the update and runs the updater
    while it renders (see [handlePage] for when it does): the updater runs
    on the current state; the state updates it queued while running
    ([addToHistory]) and the other setters it called then apply, in call
    order, to the state it returned.  An error the updater throws leaves
    the render: React takes the component off the page. *)
Definition setState (now : Z) (updater : CalculatorState -> M CalculatorState)
    (c : Component) : M Component :=
  match updater (state c) with
  | (log, Normal st) => (log, Normal (fold_left (perform now) log (with_state c st)))
  | (log, Throw e) => (log, Throw e)
  end.

(** A setter called from a handler, outside any updater. *)
Definition call_setter (now : Z) (k : call) (c : Component) : M Component :=
  ([k], Normal (perform now c k)).

(** What the page can send to the component. *)
Inductive event : Type :=
| PressNumber (num : string)          (* [handleNumber(num)] *)
| PressOperation (op : string)        (* [handleOperation(op)] *)
| PressDecimal                        (* [handleDecimal()] *)
| PressEquals                         (* [handleEquals()] *)
| PressClear                          (* [handleClear()] *)
| PressAdvanced (operation_ : string) (* [handleAdvancedOperation(operation)] *)
| PressMemory (operation_ : string)   (* [handleMemoryOperation(operation)] *)
| ToggleHistory                       (* [setShowHistory(!showHistory)] *)
| PressClearHistory                   (* [clearHistory()] *)
| ClickHistoryItem (index : nat)      (* click on [state.history[index]] *)
| ErrorTimeout.                       (* the oldest pending timer fires *)

Definition handle (now : Z) (ev : event) (c : Component) : M Component :=
  match ev with
  | PressNumber num => setState now (handleNumber num) c
  | PressOperation op => setState now (handleOperation op) c
  | PressDecimal => setState now handleDecimal c
  | PressEquals => setState now handleEquals c
  | PressClear =>
      c1 <- setState now handleClear c ;;
      c2 <- call_setter now (SetPreviousCalculation "") c1 ;;
      call_setter now (SetError None) c2
  | PressAdvanced o => setState now (handleAdvancedOperation o) c
  | PressMemory o => setState now (handleMemoryOperation o) c
  | ToggleHistory =>
      ret {| state := state c; showHistory := negb (showHistory c);
             error := error c; previousCalculation := previousCalculation c;
             timers := timers c |}
  | PressClearHistory => setState now clearHistory c
  | ClickHistoryItem index =>
      match nth_error (history (state c)) index with
      | Some item => setState now (selectHistoryItem item) c
      | None => ret c
      end
  | ErrorTimeout =>
      ret {| state := state c; showHistory := showHistory c;
             error := None; previousCalculation := previousCalculation c;
             timers := tl (timers c) |}
  end.

Definition digit_keys : list string :=
  ["0"; "1"; "2"; "3"; "4"; "5"; "6"; "7"; "8"; "9"].
Definition operator_keys : list string := ["+"; "-"; "*"; "/"].
Definition advanced_keys : list string := ["percentage"; "square-root"; "square"].
Definition memory_keys : list string :=
  ["memory-clear"; "memory-recall"; "memory-add"; "memory-subtract"].

Definition mem_string (s : string) (l : list string) : bool :=
  existsb (String.eqb s) l.

(** The events the rendered page offers: the buttons pass the strings
    above (and so does [handleKeyDown], for the keys [0]..[9], [+ - * /],
    [.], [Enter], [=], [Escape], [c] and [C]), the history panel is there
    only while [showHistory], and a timer fires only if one is pending. *)
Definition enabled (c : Component) (ev : event) : bool :=
  match ev with
  | PressNumber num => mem_string num digit_keys
  | PressOperation op => mem_string op operator_keys
  | PressAdvanced o => mem_string o advanced_keys
  | PressMemory o => mem_string o memory_keys
  | PressClearHistory => showHistory c
  | ClickHistoryItem index =>
      showHistory c && (index <? List.length (history (state c)))%nat
  | ErrorTimeout => match timers c with [] => false | _ => true end
  | PressDecimal | PressEquals | PressClear | ToggleHistory => true
  end.

(** One event after the other, at the given times, as long as none throws. *)
Fixpoint run (evs : list (Z * event)) (c : Component) : M Component :=
  match evs with
  | [] => ret c
  | (now, ev) :: rest => c' <- handle now ev c ;; run rest c'
  end.

(** The components the page can be in. *)
Inductive reachable : Component -> Prop :=
| reachable_initial : reachable initialComponent
| reachable_step (c c' : Component) (now : Z) (ev : event) (log : list call) :
    reachable c ->
    enabled c ev = true ->
    handle now ev c = (log, Normal c') ->
    reachable c'.

(** Are the events of [evs] all offered, each by the component it meets? *)
Fixpoint offered (evs : list (Z * event)) (c : Component) : bool :=
  match evs with
  | [] => true
  | (now, ev) :: rest =>
      enabled c ev &&
      match handle now ev c with
      | (_, Normal c') => offered rest c'
      | (_, Throw _) => match rest with [] => true | _ => false end
      end
  end.

(** The events [evs], one per millisecond from [start] on. *)
Fixpoint at_times_from (start offset : Z) (evs : list event)
  : list (Z * event) :=
  match evs with
  | [] => []
  | ev :: rest =>
      ((start + offset)%Z, ev) :: at_times_from start (offset + 1)%Z rest
  end.

Definition at_times (start : Z) (evs : list event) : list (Z * event) :=
  at_times_from start 0 evs.

(** [prev] with another text on the display. *)
Definition with_currentValue (text : string) (prev : CalculatorState)
  : CalculatorState := {|
  currentValue := text;
  previousValue := previousValue prev;
  operation := operation prev;
  memory := memory prev;
  history := history prev;
  waitingForNewValue := waitingForNewValue prev;
|}.

(** *** Key sequences *)

Definition keys_8_div_0 : list event :=
  [PressClear; PressNumber "8"; PressOperation "/"; PressNumber "0"].

Definition keys_5_plus_3_times_2 : list event :=
  [PressClear; PressNumber "5"; PressOperation "+"; PressNumber "3";
   PressOperation "*"; PressNumber "2"; PressEquals].

Definition keys_memory : list event :=
  [PressNumber "5"; PressMemory "memory-add"; PressClear;
   PressNumber "2"; PressMemory "memory-subtract";
   PressMemory "memory-recall"].

(** [1 + 1 =], then [+ 1 =] again and again: [n + 1] results in all. *)
Fixpoint keys_count_up (n : nat) : list event :=
  match n with
  | O => [PressNumber "1"; PressOperation "+"; PressNumber "1"; PressEquals]
  | S m =>
      (keys_count_up m
         ++ [PressOperation "+"; PressNumber "1"; PressEquals])%list
  end.

(** [9], then [x²] ten times. *)
Definition keys_overflow : list event :=
  PressNumber "9" :: repeat (PressAdvanced "square") 10.

(** After the overflow, [-] and [=]: infinity minus infinity. *)
Definition keys_nan : list event :=
  (keys_overflow ++ [PressOperation "-"; PressEquals])%list.

(** [items] added to the history one after the other. *)
Definition addAllToHistory (items : list HistoryItem) (st : CalculatorState)
  : CalculatorState :=
  fold_left (fun s item => addToHistory item s) items st.

(** The decimal texts of [hi], [hi - 1], ..., [hi - n + 1]. *)
Fixpoint count_down_texts (n : nat) (hi : Z) : list string :=
  match n with
  | O => []
  | S m => JS.decimal_string hi :: count_down_texts m (hi - 1)%Z
  end.

(** *** Invariants *)

(** Text that [parseFloat] reads a number from: typed text, which begins
    with a digit, or the text of a number. *)
Definition numeric_text (s : string) : Prop :=
  JS.starts_with_digit s = true \/ exists x : JS.number, s = JS.toString x.

Record state_inv (st : CalculatorState) : Prop := {
  inv_current : numeric_text (currentValue st);
  inv_typing :
    waitingForNewValue st = false ->
    JS.starts_with_digit (currentValue st) = true;
  inv_pending : operation st <> None -> previousValue st <> "";
  inv_history :
    Forall (fun item => exists x : JS.number, result item = JS.toString x)
           (history st);
  inv_bound : (List.length (history st) <= 50)%nat;
}.

(** The history entries an updater may queue hold the text of a number. *)
Definition call_ok (k : call) : Prop :=
  match k with
  | AddToHistory _ res => exists x : JS.number, res = JS.toString x
  | _ => True
  end.

(** An updater keeps the invariant and queues only good history items. *)
Definition keeps_inv (updater : CalculatorState -> M CalculatorState) : Prop :=
  forall (prev st : CalculatorState) (log : list call),
    state_inv prev ->
    updater prev = (log, Normal st) ->
    state_inv st /\ Forall call_ok log.

(* ------------------------------------------------------------------ *)
(** ** The keyboard *)

(** [handleKeyDown(e)], on [e.key]: the event it passes on, if any, and
    whether it calls [e.preventDefault()].  [key >= '0' && key <= '9']
    compares strings, unit by unit. *)
Definition handleKeyDown (key : string) : option event * bool :=
  if String.leb "0" key && String.leb key "9" then
    (Some (PressNumber key), false)
  else if mem_string key operator_keys then
    (Some (PressOperation key), false)
  else if key =? "." then
    (Some PressDecimal, false)
  else if (key =? "Enter") || (key =? "=") then
    (Some PressEquals, true)
  else if (key =? "Escape") || (key =? "c") || (key =? "C") then
    (Some PressClear, false)
  else (None, false).

(** A key goes down at time [now]. *)
Definition keyDown (now : Z) (key : string) (c : Component) : M Component :=
  match fst (handleKeyDown key) with
  | Some ev => handle now ev c
  | None => ret c
  end.

(* ------------------------------------------------------------------ *)
(** ** Shapes of text and of histories *)

Fixpoint all_digits (s : string) : bool :=
  match s with
  | String c r => JS.is_digit c && all_digits r
  | EmptyString => true
  end.

(** Digits, then perhaps a point and more digits. *)
Fixpoint digits_point_digits (s : string) : bool :=
  match s with
  | String c r =>
      if JS.is_digit c then digits_point_digits r
      else Ascii.eqb c "." && all_digits r
  | EmptyString => true
  end.

(** Text as the digit and point keys build it: a digit first, at most one
    point, and a leading [0] only alone or right before the point. *)
Definition typed_text (s : string) : bool :=
  match s with
  | String c r =>
      JS.is_digit c && digits_point_digits r
      && (if Ascii.eqb c "0"
          then match r with
               | String c2 _ => Ascii.eqb c2 "."
               | EmptyString => true
               end
          else true)
  | EmptyString => false
  end.

(** The digit keys [ds] without the zeros they begin with; ["0"] if
    nothing is left. *)
Fixpoint drop_leading_zeros (ds : list string) : string :=
  match ds with
  | [] => "0"
  | d :: rest => if d =? "0" then drop_leading_zeros rest else concat "" ds
  end.

(** The times of the items of a history, newest first, none after
    [bound]. *)
Fixpoint newest_first (bound : Z) (h : list HistoryItem) : Prop :=
  match h with
  | [] => True
  | item :: rest =>
      (timestamp item <= bound)%Z /\ newest_first (timestamp item) rest
  end.

(** Events at times that never go back, from [t] on. *)
Fixpoint clock_advances (t : Z) (evs : list (Z * event)) : Prop :=
  match evs with
  | [] => True
  | (now, _) :: rest => (t <= now)%Z /\ clock_advances now rest
  end.

(** The time of the last event of [evs], [t] if there is none. *)
Fixpoint last_time (t : Z) (evs : list (Z * event)) : Z :=
  match evs with
  | [] => t
  | (now, _) :: rest => last_time now rest
  end.

(** Is [k] a call of [showError]? *)
Definition is_ShowError (k : call) : bool :=
  match k with
  | ShowError _ => true
  | _ => false
  end.

Definition is_AddToHistory (k : call) : bool :=
  match k with
  | AddToHistory _ _ => true
  | _ => false
  end.

(** While a number is being typed, the display is typed text. *)
Definition typing_inv (st : CalculatorState) : Prop :=
  waitingForNewValue st = false -> typed_text (currentValue st) = true.

(* ------------------------------------------------------------------ *)
(** ** When React runs an updater

    [setState] above is the path on which React queues the update and runs
    the updater while it renders; the state updates the updater queues
    itself ([addToHistory]) are then applied after it.  When the component
    has no update pending, on either of its two fibers, React runs the
    updater at once, inside the call of [setState], to see whether the state
    changes at all.  A state update the updater queues meanwhile gets into
    the queue first, and the update of the updater itself, which carries the
    state it returned, comes after it and replaces its result: the item that
    [addToHistory] made is lost.  That is so for the first event after the
    mount, and for an event right after one that changed none of the four
    state cells; after a render that changed one, the other fiber keeps the
    mark of the update, and the next updater runs in the render. *)

(** A call of an updater that was run at once: the state update of
    [addToHistory] is overwritten, the other setters act as always. *)
Definition performEager (now : Z) (c : Component) (k : call) : Component :=
  match k with
  | AddToHistory _ _ => c
  | _ => perform now c k
  end.

(** [setState(updater)] with no update pending and an updater that returns
    a new state.  An error the updater throws is held back and thrown again
    when React runs the updater a second time, in the render. *)
Definition setStateEager (now : Z)
    (updater : CalculatorState -> M CalculatorState) (c : Component)
  : M Component :=
  match updater (state c) with
  | (log, Normal st) =>
      (log, Normal (fold_left (performEager now) log (with_state c st)))
  | (log, Throw e) => ((log ++ log)%list, Throw e)
  end.

Definition setStateIn (eager : bool) (now : Z)
    (updater : CalculatorState -> M CalculatorState) (c : Component)
  : M Component :=
  if eager then setStateEager now updater c else setState now updater c.

(** The handlers, with the updater run at once ([eager]) or in the
    render. *)
Definition handleIn (eager : bool) (now : Z) (ev : event) (c : Component)
  : M Component :=
  match ev with
  | PressNumber num => setStateIn eager now (handleNumber num) c
  | PressOperation op => setStateIn eager now (handleOperation op) c
  | PressDecimal => setStateIn eager now handleDecimal c
  | PressEquals => setStateIn eager now handleEquals c
  | PressClear =>
      c1 <- setStateIn eager now handleClear c ;;
      c2 <- call_setter now (SetPreviousCalculation "") c1 ;;
      call_setter now (SetError None) c2
  | PressAdvanced o => setStateIn eager now (handleAdvancedOperation o) c
  | PressMemory o => setStateIn eager now (handleMemoryOperation o) c
  | PressClearHistory => setStateIn eager now clearHistory c
  | ClickHistoryItem index =>
      match nth_error (history (state c)) index with
      | Some item => setStateIn eager now (selectHistoryItem item) c
      | None => ret c
      end
  | ToggleHistory | ErrorTimeout => handle now ev c
  end.

(** Does the updater of [ev] end in [return prev], handing back the very
    object it was given?  (The events that call no updater leave the state
    object alone as well.) *)
Definition returnsPrev (ev : event) (prev : CalculatorState) : bool :=
  match ev with
  | PressDecimal =>
      negb (waitingForNewValue prev) && has_point (currentValue prev)
  | PressEquals =>
      match operation prev with
      | Some pending =>
          if truthy (Some pending) && negb (previousValue prev =? "")
          then (pending =? "/")
               && JS.strict_eq (JS.parseFloat (currentValue prev)) (JS.of_Z 0)
          else true
      | None => true
      end
  | PressAdvanced o =>
      if o =? "percentage" then false
      else if o =? "square-root"
           then JS.lt (JS.parseFloat (currentValue prev)) (JS.of_Z 0)
      else if o =? "square" then false
      else true
  | PressMemory o => negb (mem_string o memory_keys)
  | ToggleHistory | ErrorTimeout => true
  | PressNumber _ | PressOperation _ | PressClear | PressClearHistory
  | ClickHistoryItem _ => false
  end.

Definition same_error (a b : option string) : bool :=
  match a, b with
  | Some x, Some y => x =? y
  | None, None => true
  | _, _ => false
  end.

(** Did the event change one of the four state cells ([Object.is] on the
    state object, on the strings and on the flag)? *)
Definition cellsChanged (ev : event) (c c' : Component) : bool :=
  negb (returnsPrev ev (state c))
  || negb (same_error (error c) (error c'))
  || negb (previousCalculation c =? previousCalculation c')
  || negb (Bool.eqb (showHistory c) (showHistory c')).

(** The mounted component: what it holds, and whether no update is
    pending on its fibers. *)
Record Page : Type := {
  component : Component;
  idle : bool;
}.

Definition mounted : Page := {| component := initialComponent; idle := true |}.

(** A click on a history item that is not there calls no setter. *)
Definition callsNothing (ev : event) (c : Component) : bool :=
  match ev with
  | ClickHistoryItem index =>
      match nth_error (history (state c)) index with
      | Some _ => false
      | None => true
      end
  | _ => false
  end.

(** An event on the page.  The updater is run at once when the page is
    idle; its own update then replaces what it queued, unless it returned
    [prev].  The page is idle afterwards when no cell has changed. *)
Definition handlePage (now : Z) (ev : event) (p : Page) : M Page :=
  let c := component p in
  if callsNothing ev c then ret p
  else
    c' <- handleIn (idle p && negb (returnsPrev ev (state c))) now ev c ;;
    ret {| component := c'; idle := negb (cellsChanged ev c c') |}.

Fixpoint runPage (evs : list (Z * event)) (p : Page) : M Page :=
  match evs with
  | [] => ret p
  | (now, ev) :: rest => p' <- handlePage now ev p ;; runPage rest p'
  end.

Fixpoint offeredPage (evs : list (Z * event)) (p : Page) : bool :=
  match evs with
  | [] => true
  | (now, ev) :: rest =>
      enabled (component p) ev &&
      match handlePage now ev p with
      | (_, Normal p') => offeredPage rest p'
      | (_, Throw _) => match rest with [] => true | _ => false end
      end
  end.

(** The pages the mounted component can get to. *)
Inductive reachablePage : Page -> Prop :=
| reachablePage_mounted : reachablePage mounted
| reachablePage_step (p p' : Page) (now : Z) (ev : event) (log : list call) :
    reachablePage p ->
    enabled (component p) ev = true ->
    handlePage now ev p = (log, Normal p') ->
    reachablePage p'.

(** *** Key sequences on the page *)

(** [8 * 2 .], and the point again: the second point changes nothing. *)
Definition keys_8_times_2_point_point : list event :=
  [PressNumber "8"; PressOperation "*"; PressNumber "2"; PressDecimal;
   PressDecimal].

(** [1 + 1 . . =], [n] times over: [n] results, each right after a point
    that changed nothing. *)
Fixpoint keys_idle_rounds (n : nat) : list event :=
  match n with
  | O => []
  | S m =>
      ([PressNumber "1"; PressOperation "+"; PressNumber "1"; PressDecimal;
        PressDecimal; PressEquals] ++ keys_idle_rounds m)%list
  end.

(** The page after [8 * 2 .] and a second point: idle. *)
Definition page_8_times_2_point : Page := {|
  component :=
    {| state :=
         {| currentValue := "2."; previousValue := "8"; operation := Some "*";
            memory := JS.of_Z 0; history := []; waitingForNewValue := false |};
       showHistory := false; error := None;
       previousCalculation := "8 Ã—"; timers := [] |};
  idle := true;
|}.

(** The page after [9] and the square key, at times 0 and 1: one item in
    the history, not idle. *)
Definition page_9_squared : Page := {|
  component :=
    {| state :=
         {| currentValue := "81"; previousValue := ""; operation := None;
            memory := JS.of_Z 0;
            history := [{| calculation := "9Â²"; result := "81";
                           timestamp := 1 |}];
            waitingForNewValue := true |};
       showHistory := false; error := None;
       previousCalculation := ""; timers := [] |};
  idle := false;
|}.

(* ------------------------------------------------------------------ *)
(** ** Facts about numbers and their text *)

Module JSFacts.
Import JS.
Local Open Scope Z_scope.

(** Rounding never turns a natural mantissa into NaN. *)
Lemma shr_1_nonneg (mrs : shr_record) :
  0 <= shr_m mrs -> 0 <= shr_m (shr_1 mrs).
Proof.
  destruct mrs as [m r s]; simpl.
  destruct m as [|p|p]; try destruct p; simpl; lia.
Qed.

Lemma iter_shr_1_nonneg (p : positive) (mrs : shr_record) :
  0 <= shr_m mrs -> 0 <= shr_m (iter_pos shr_1 p mrs).
Proof.
  revert mrs.
  induction p as [p IH|p IH|]; intros mrs H; simpl.
  - apply IH, IH, shr_1_nonneg, H.
  - apply IH, IH, H.
  - apply shr_1_nonneg, H.
Qed.

Lemma shr_fexp_nonneg (m e : Z) (l : location) :
  0 <= m -> 0 <= shr_m (fst (shr_fexp prec emax m e l)).
Proof.
  intros H. unfold shr_fexp, shr.
  assert (H0 : 0 <= shr_m (shr_record_of_loc m l))
    by (destruct l as [|[]]; simpl; exact H).
  destruct (fexp prec emax (Zdigits2 m + e) - e) as [|p|p]; simpl; auto.
  apply iter_shr_1_nonneg, H0.
Qed.

Lemma round_nearest_even_nonneg (m : Z) (l : location) :
  0 <= m -> 0 <= round_nearest_even m l.
Proof.
  intros H. destruct l as [|[]]; simpl; try lia.
  destruct (Z.even m); lia.
Qed.

Lemma binary_round_aux_not_nan (sx : bool) (mx ex : Z) (lx : location) :
  0 <= mx -> isNaN (binary_round_aux prec emax sx mx ex lx) = false.
Proof.
  intros H. unfold binary_round_aux.
  pose proof (shr_fexp_nonneg mx ex lx H) as H1.
  destruct (shr_fexp prec emax mx ex lx) as [mrs' e']; simpl in H1.
  pose proof (shr_fexp_nonneg _ e' loc_Exact
                (round_nearest_even_nonneg _ (loc_of_shr_record mrs') H1)) as H2.
  destruct (shr_fexp prec emax _ e' loc_Exact) as [mrs2 e2]; simpl in H2.
  destruct (shr_m mrs2) as [|p|p]; try reflexivity.
  - destruct (e2 <=? emax - prec); reflexivity.
  - lia.
Qed.

Lemma of_ratio_not_nan (neg : bool) (num den : positive) :
  isNaN (of_ratio neg num den) = false.
Proof.
  unfold of_ratio, SFdiv_core_binary.
  set (m' := match _ - _ with Z0 => Zpos num | Zpos _ => _ | Zneg _ => 0 end).
  assert (Hm : 0 <= m').
  { subst m'. destruct (_ - _); try lia. apply Z.shiftl_nonneg. lia. }
  pose proof (Z.div_pos m' (Zpos den) Hm ltac:(lia)) as Hq.
  unfold Z.div in Hq.
  destruct (Z.div_eucl m' (Zpos den)) as [q r]; simpl in Hq.
  apply binary_round_aux_not_nan, Hq.
Qed.

Lemma of_decimal_not_nan (neg : bool) (m e10 : Z) :
  isNaN (of_decimal neg m e10) = false.
Proof.
  unfold of_decimal.
  destruct m; try reflexivity.
  destruct (0 <=? e10); apply of_ratio_not_nan.
Qed.

(** *** [parseFloat] on text that begins with a digit *)

Lemma is_digit_bounds (c : ascii) :
  is_digit c = true -> (48 <= N_of_ascii c <= 57)%N.
Proof.
  unfold is_digit. rewrite andb_true_iff, !N.leb_le. tauto.
Qed.

Lemma trim_start_digit (c : ascii) (r : string) :
  is_digit c = true -> trim_start (String c r) = String c r.
Proof.
  intros H. apply is_digit_bounds in H.
  assert (E : forall n, (n < 48 \/ 57 < n)%N -> (N_of_ascii c =? n)%N = false)
    by (intros n Hn; apply N.eqb_neq; lia).
  simpl. unfold is_ws1, is_ws2, is_ws3.
  rewrite !E by lia. simpl.
  destruct r as [|c2 [|c3 r3]]; reflexivity.
Qed.

Lemma digit_not_sign (c : ascii) :
  is_digit c = true -> c <> "-"%char /\ c <> "+"%char /\ c <> "I"%char.
Proof.
  intros H. repeat split; intros ->; discriminate H.
Qed.

(** The literal read from text that begins with a digit, after the sign. *)
Lemma unsigned_literal_not_nan (neg : bool) (c : ascii) (r : string) :
  is_digit c = true ->
  isNaN
    (if String.prefix "Infinity" (String c r) then S754_infinity neg
     else
       let '(ip, r1) := span_digits (String c r) in
       let '(fp, r2) :=
         match r1 with
         | String "."%char r => span_digits r
         | _ => (EmptyString, r1)
         end in
       match ip, fp with
       | EmptyString, EmptyString => NaN
       | _, _ =>
           of_decimal neg (digits_value 0 (ip ++ fp))
                      (exponent_part r2 - Z.of_nat (String.length fp))
       end) = false.
Proof.
  intros H.
  assert (HI : Ascii.eqb "I" c = false).
  { apply Ascii.eqb_neq. intros <-. discriminate H. }
  cbn [String.prefix]. 
  destruct (ascii_dec "I" c) as [e|_]; [subst c; discriminate H|].
  cbn [span_digits]. rewrite H.
  destruct (span_digits r) as [ds rest].
  destruct (match rest with String "."%char r0 => span_digits r0 | _ => (EmptyString, rest) end)
    as [fp r2].
  apply of_decimal_not_nan.
Qed.

Lemma parseFloat_digit (s : string) :
  starts_with_digit s = true -> isNaN (parseFloat s) = false.
Proof.
  destruct s as [|c r]; [discriminate|]. simpl. intros H.
  unfold parseFloat. rewrite (trim_start_digit c r H).
  destruct (digit_not_sign c H) as (Hm & Hp & _).
  assert (E : match String c r with
              | String "-"%char r0 => (true, r0)
              | String "+"%char r0 => (false, r0)
              | _ => (false, String c r)
              end = (false, String c r)).
  { destruct c as [[] [] [] [] [] [] [] []]; try reflexivity;
      exfalso; auto. }
  rewrite E. apply (unsigned_literal_not_nan false c r H).
Qed.

Lemma parseFloat_minus_digit (s : string) :
  starts_with_digit s = true -> isNaN (parseFloat ("-" ++ s)) = false.
Proof.
  destruct s as [|c r]; [discriminate|]. simpl. intros H.
  unfold parseFloat.
  change (trim_start (String "-" (String c r)))
    with (match String c r with
          | String c2 r2 =>
              if is_ws2 "-" c2 then trim_start r2
              else match r2 with
                   | String c3 r3 =>
                       if is_ws3 "-" c2 c3 then trim_start r3
                       else String "-" (String c r)
                   | EmptyString => String "-" (String c r)
                   end
          | EmptyString => String "-" (String c r)
          end).
  cbv beta iota.
  change (is_ws2 "-" c) with false. cbv iota.
  assert (E : match r with
              | String c3 r3 =>
                  if is_ws3 "-" c c3 then trim_start r3
                  else String "-" (String c r)
              | EmptyString => String "-" (String c r)
              end = String "-" (String c r))
    by (destruct r; reflexivity).
  rewrite E.
  apply (unsigned_literal_not_nan true c r H).
Qed.

(** *** The text [toString] writes *)

Lemma is_digit_digit_char (d : Z) : is_digit (digit_char d) = true.
Proof.
  unfold digit_char.
  pose proof (Z.mod_pos_bound d 10 ltac:(lia)) as H.
  assert (E : d mod 10 = 0 \/ d mod 10 = 1 \/ d mod 10 = 2 \/ d mod 10 = 3
              \/ d mod 10 = 4 \/ d mod 10 = 5 \/ d mod 10 = 6 \/ d mod 10 = 7
              \/ d mod 10 = 8 \/ d mod 10 = 9) by lia.
  repeat (destruct E as [E|E]; [rewrite E; reflexivity|]).
  rewrite E; reflexivity.
Qed.

Lemma to_digits_starts (fuel : nat) (z : Z) (acc : string) :
  starts_with_digit acc = true \/ fuel <> O ->
  starts_with_digit (to_digits fuel z acc) = true.
Proof.
  revert z acc.
  induction fuel as [|f IH]; intros z acc H; simpl.
  - destruct H as [H|H]; [exact H|congruence].
  - destruct (z <? 10).
    + simpl. apply is_digit_digit_char.
    + apply IH. left. simpl. apply is_digit_digit_char.
Qed.

Lemma decimal_string_starts (z : Z) :
  starts_with_digit (decimal_string z) = true.
Proof.
  unfold decimal_string. apply to_digits_starts. right. discriminate.
Qed.

Lemma starts_with_digit_app (s t : string) :
  starts_with_digit s = true -> starts_with_digit (s ++ t) = true.
Proof.
  destruct s; [discriminate|]. simpl. auto.
Qed.

Lemma layout_starts (ds : string) (n : Z) :
  starts_with_digit ds = true -> starts_with_digit (layout ds n) = true.
Proof.
  intros H. unfold layout.
  destruct ((Z.of_nat (String.length ds) <=? n) && (n <=? 21)).
  { apply starts_with_digit_app, H. }
  destruct ((0 <? n) && (n <=? 21)) eqn:E2.
  { apply starts_with_digit_app.
    apply andb_true_iff in E2. destruct E2 as [E2 _].
    apply Z.ltb_lt in E2.
    destruct ds as [|d rest]; [discriminate|].
    destruct (Z.to_nat n) as [|k] eqn:En; [lia|]. simpl. exact H. }
  destruct ((-6 <? n) && (n <=? 0)).
  { reflexivity. }
  destruct ds as [|d rest]; [discriminate|].
  destruct rest; exact H.
Qed.

Lemma positive_to_string_starts (m : positive) (e : Z) :
  starts_with_digit (positive_to_string m e) = true.
Proof.
  unfold positive_to_string.
  destruct (ratio_of m e) as [num den].
  destruct (shortest _ _ _ _ _) as [s p].
  destruct (strip_zeros _ _ _) as [s' p'].
  apply layout_starts, decimal_string_starts.
Qed.

(** The text of a number is never empty, *)
Lemma toString_nonempty (x : number) : toString x <> "".
Proof.
  destruct x as [s|[]| |[] m e]; try discriminate; simpl.
  pose proof (positive_to_string_starts m e) as H.
  destruct (positive_to_string m e); [discriminate H|discriminate].
Qed.

(** and [parseFloat] reads a number from it, unless it is ["NaN"]. *)
Lemma parseFloat_toString (x : number) :
  isNaN (parseFloat (toString x)) = false \/ toString x = "NaN".
Proof.
  destruct x as [s|[]| |[] m e]; simpl; auto; left.
  - apply parseFloat_minus_digit, positive_to_string_starts.
  - apply parseFloat_digit, positive_to_string_starts.
Qed.

End JSFacts.

(* ------------------------------------------------------------------ *)
(** ** Running the component *)

Arguments JS.parseFloat : simpl never.
Arguments JS.toString : simpl never.
Arguments JS.add : simpl never.
Arguments JS.sub : simpl never.
Arguments JS.mul : simpl never.
Arguments JS.div : simpl never.
Arguments JS.sqrt : simpl never.
Arguments JS.lt : simpl never.
Arguments JS.le : simpl never.
Arguments JS.strict_eq : simpl never.
Arguments JS.of_Z : simpl never.

Lemma with_state_same (c : Component) : with_state c (state c) = c.
Proof. destruct c; reflexivity. Qed.

(** Offered events lead from reachable components to reachable ones. *)
Lemma run_reachable (evs : list (Z * event)) :
  forall (c c' : Component) (log : list call),
    reachable c ->
    offered evs c = true ->
    run evs c = (log, Normal c') ->
    reachable c'.
Proof.
  induction evs as [|[now ev] rest IH]; intros c c' log Hc Ho Hr; simpl in *.
  - inversion Hr; subst; exact Hc.
  - apply andb_true_iff in Ho. destruct Ho as [He Ho].
    unfold bind in Hr.
    destruct (handle now ev c) as [log1 [c1|e]] eqn:Hh; [|discriminate].
    destruct (run rest c1) as [log2 r] eqn:Hrest.
    inversion Hr; subst.
    apply (IH c1 c' log2); auto.
    apply (reachable_step c c1 now ev log1); auto.
Qed.

(* ------------------------------------------------------------------ *)
(** ** Division by zero *)

(** After [C 8 / 0] the display shows the divisor that was typed last. *)
Lemma after_8_div_0 (start : Z) :
  exists (log : list call) (c : Component),
    run (at_times start keys_8_div_0) initialComponent = (log, Normal c)
    /\ state c = {| currentValue := "0"; previousValue := "8";
                    operation := Some "/"; memory := JS.of_Z 0;
                    history := []; waitingForNewValue := false |}.
Proof.
  eexists. eexists. split; reflexivity.
Qed.

(** C1, as the specification words it, does not hold: after [C 8 / 0 =]
    the display does not show ["8"]. *)
Lemma divide_by_zero_display_is_not_8 :
  ~ (exists (log : list call) (c : Component),
       run (at_times 0 (keys_8_div_0 ++ [PressEquals])) initialComponent
         = (log, Normal c)
       /\ currentValue (state c) = "8"
       /\ operation (state c) = Some "/"
       /\ previousValue (state c) = "8").
Proof.
  intros (log & c & Hrun & Hcur & _).
  vm_compute in Hrun.
  inversion Hrun; subst c. discriminate Hcur.
Qed.

(** C1, amended: after [C 8 / 0], equals raises exactly one error,
    "Cannot divide by zero", and leaves the calculator state as it was:
    the display shows ["0"] (the divisor just typed), the operation is
    still ["/"] and [previousValue] is still ["8"]. *)
Theorem divide_by_zero_keeps_state (start now : Z) :
  exists (log : list call) (c c' : Component),
    run (at_times start keys_8_div_0) initialComponent = (log, Normal c)
    /\ handle now PressEquals c
         = ([ShowError "Cannot divide by zero"], Normal c')
    /\ state c' = state c
    /\ currentValue (state c') = "0"
    /\ operation (state c') = Some "/"
    /\ previousValue (state c') = "8"
    /\ error c' = Some "Cannot divide by zero".
Proof.
  destruct (after_8_div_0 start) as (log & c & Hrun & Hst).
  exists log, c.
  destruct c as [st sh er pc tm]; simpl in Hst; subst st.
  eexists. split; [exact Hrun|].
  split; [reflexivity|].
  repeat split.
Qed.

(** With a division pending and a zero typed as the divisor, equals
    catches the error, reports it and returns [prev]; an operator key does
    not catch it. *)
Lemma handleEquals_divide_by_zero (prev : CalculatorState) :
  operation prev = Some "/" ->
  previousValue prev <> "" ->
  JS.strict_eq (JS.parseFloat (currentValue prev)) (JS.of_Z 0) = true ->
  handleEquals prev = ([ShowError "Cannot divide by zero"], Normal prev).
Proof.
  intros Hop Hp Hz. unfold handleEquals, calculate. rewrite Hop.
  apply String.eqb_neq in Hp. rewrite Hp. simpl. rewrite Hz. reflexivity.
Qed.

Lemma handleOperation_divide_by_zero (op : string) (prev : CalculatorState) :
  operation prev = Some "/" ->
  waitingForNewValue prev = false ->
  JS.strict_eq (JS.parseFloat (currentValue prev)) (JS.of_Z 0) = true ->
  handleOperation op prev = ([], Throw "Cannot divide by zero").
Proof.
  intros Hop Hw Hz. unfold handleOperation, calculate. rewrite Hop, Hw.
  simpl. rewrite Hz. reflexivity.
Qed.

(** C2: the same division by zero, reached through an operator key
    instead of equals, is not caught: the error leaves [handleOperation],
    the updater and [setState].  Every key of the sequence is one the page
    offers. *)
Theorem operator_key_divide_by_zero_escapes :
  forall op : string,
    In op operator_keys ->
    offered (at_times 0 (keys_8_div_0 ++ [PressOperation op])) initialComponent
      = true
    /\ snd (run (at_times 0 (keys_8_div_0 ++ [PressOperation op]))
                initialComponent)
       = Throw "Cannot divide by zero".
Proof.
  intros op H. simpl in H.
  repeat (destruct H as [<-|H]; [split; vm_compute; reflexivity|]).
  destruct H.
Qed.

Lemma operator_key_divide_by_zero_escapes_plus :
  snd (run (at_times 0 (keys_8_div_0 ++ [PressOperation "+"]))
           initialComponent)
  = Throw "Cannot divide by zero".
Proof.
  apply (operator_key_divide_by_zero_escapes "+"). simpl. auto.
Defined.

(* ------------------------------------------------------------------ *)
(** ** Operator keys *)

(** [calculate] logs nothing. *)
Lemma calculate_log (a b : JS.number) (op : string) :
  fst (calculate a b op) = [].
Proof.
  unfold calculate.
  repeat match goal with |- context [if ?b then _ else _] => destruct b end;
    reflexivity.
Qed.

(** Only a division by zero keeps [calculate] from returning. *)
Lemma calculate_returns (a b : JS.number) (op : string) :
  (op =? "/") && JS.strict_eq b (JS.of_Z 0) = false ->
  exists r : JS.number, calculate a b op = ret r.
Proof.
  unfold calculate. intros H.
  destruct (op =? "+"); [eexists; reflexivity|].
  destruct (op =? "-"); [eexists; reflexivity|].
  destruct (op =? "*"); [eexists; reflexivity|].
  destruct (op =? "/"); [|eexists; reflexivity].
  simpl in H. rewrite H. eexists; reflexivity.
Qed.

(** C5: operators chain from left to right, without precedence.
    [C 5 + 3 * 2 =] shows ["16"], not ["11"]; and an operator key pressed
    while an operation is pending and a second operand has been typed
    evaluates the pending operation at once (it has a result unless it is a
    division by zero): the result becomes both [currentValue] and
    [previousValue], the new operator is pending and the next digit starts a
    new number. *)
Theorem operator_chaining_left_to_right :
  (forall start : Z,
      exists (log : list call) (c : Component),
        run (at_times start keys_5_plus_3_times_2) initialComponent
          = (log, Normal c)
        /\ currentValue (state c) = "16"
        /\ currentValue (state c) <> "11")
  /\ (forall (op pending : string) (prev : CalculatorState),
        operation prev = Some pending ->
        truthy (Some pending) = true ->
        waitingForNewValue prev = false ->
        (pending =? "/")
          && JS.strict_eq (JS.parseFloat (currentValue prev)) (JS.of_Z 0)
        = false ->
        exists r : JS.number,
          calculate (JS.parseFloat (previousValue prev))
                    (JS.parseFloat (currentValue prev)) pending = ret r
          /\ handleOperation op prev
             = ([SetPreviousCalculation
                   (currentValue prev ++ " " ++ getOperationSymbol op)],
                Normal {| currentValue := JS.toString r;
                          previousValue := JS.toString r;
                          operation := Some op;
                          memory := memory prev;
                          history := history prev;
                          waitingForNewValue := true |})).
Proof.
  split.
  - intros start. eexists. eexists.
    split; [vm_compute; reflexivity|].
    split; [reflexivity|discriminate].
  - intros op pending prev Hop Ht Hw Hz.
    destruct (calculate_returns (JS.parseFloat (previousValue prev)) _ _ Hz)
      as [r Hc].
    exists r. split; [exact Hc|].
    unfold handleOperation. rewrite Hop, Ht, Hw, Hc. reflexivity.
Qed.

Lemma operator_chaining_5_plus_3_times :
  exists r : JS.number,
    calculate (JS.parseFloat "5") (JS.parseFloat "3") "+" = ret r
    /\ handleOperation "*"
         {| currentValue := "3"; previousValue := "5"; operation := Some "+";
            memory := JS.of_Z 0; history := []; waitingForNewValue := false |}
       = ([SetPreviousCalculation "3 Ã—"],
          Normal {| currentValue := JS.toString r;
                    previousValue := JS.toString r;
                    operation := Some "*"; memory := JS.of_Z 0; history := [];
                    waitingForNewValue := true |}).
Proof.
  apply (proj2 operator_chaining_left_to_right "*" "+"
           {| currentValue := "3"; previousValue := "5";
              operation := Some "+"; memory := JS.of_Z 0; history := [];
              waitingForNewValue := false |}).
  - reflexivity.
  - reflexivity.
  - reflexivity.
  - reflexivity.
Defined.

(* ------------------------------------------------------------------ *)
(** ** Clear *)

(** C9: clear resets the entry ([currentValue] ["0"], [previousValue] [""],
    no operation, not waiting) and leaves the memory register and the
    history as they are. *)
Theorem clear_keeps_memory_and_history (now : Z) (c : Component) :
  exists (log : list call) (c' : Component),
    handle now PressClear c = (log, Normal c')
    /\ currentValue (state c') = "0"
    /\ previousValue (state c') = ""
    /\ operation (state c') = None
    /\ waitingForNewValue (state c') = false
    /\ memory (state c') = memory (state c)
    /\ history (state c') = history (state c).
Proof.
  eexists. eexists. split; [reflexivity|]. simpl. repeat split.
Qed.

(* ------------------------------------------------------------------ *)
(** ** Memory *)

(** No memory operation logs a call or touches [previousValue],
    [operation] or [history]. *)
Lemma handleMemoryOperation_frame (o : string) (prev : CalculatorState) :
  exists st : CalculatorState,
    handleMemoryOperation o prev = ret st
    /\ previousValue st = previousValue prev
    /\ operation st = operation prev
    /\ history st = history prev.
Proof.
  unfold handleMemoryOperation.
  repeat match goal with |- context [if ?b then _ else _] => destruct b end;
    eexists; (split; [reflexivity|]); simpl; repeat split.
Qed.

(** C8: from memory 0, M+ on ["5"] makes the memory 5, then M- on ["2"]
    makes it 3, then MR shows ["3"] and waits for a new value; and no memory
    operation alters [previousValue], [operation] or [history].  The keys
    [5 M+ C 2 M- MR] do the same from the initial component ([C] lets the
    [2] start a new number; it keeps the memory). *)
Theorem memory_round_trip :
  (forall st : CalculatorState,
      memory st = JS.of_Z 0 ->
      exists st1 st2 st3 : CalculatorState,
        handleMemoryOperation "memory-add" (with_currentValue "5" st) = ret st1
        /\ memory st1 = JS.of_Z 5
        /\ handleMemoryOperation "memory-subtract" (with_currentValue "2" st1)
           = ret st2
        /\ memory st2 = JS.of_Z 3
        /\ handleMemoryOperation "memory-recall" st2 = ret st3
        /\ currentValue st3 = "3"
        /\ waitingForNewValue st3 = true
        /\ memory st3 = JS.of_Z 3)
  /\ (forall (o : string) (prev : CalculatorState),
        exists st : CalculatorState,
          handleMemoryOperation o prev = ret st
          /\ previousValue st = previousValue prev
          /\ operation st = operation prev
          /\ history st = history prev)
  /\ (forall start : Z,
        exists (log : list call) (c : Component),
          run (at_times start keys_memory) initialComponent = (log, Normal c)
          /\ currentValue (state c) = "3"
          /\ memory (state c) = JS.of_Z 3).
Proof.
  split; [|split].
  - intros st H.
    eexists. eexists. eexists.
    split; [reflexivity|]. simpl. rewrite H.
    split; [vm_compute; reflexivity|].
    split; [reflexivity|]. simpl.
    split; [vm_compute; reflexivity|].
    split; [reflexivity|]. simpl.
    repeat split; vm_compute; reflexivity.
  - apply handleMemoryOperation_frame.
  - intros start. eexists. eexists.
    split; [vm_compute; reflexivity|]. split; reflexivity.
Qed.

Lemma memory_round_trip_initial :
  exists st1 st2 st3 : CalculatorState,
    handleMemoryOperation "memory-add" (with_currentValue "5" initialState)
      = ret st1
    /\ memory st1 = JS.of_Z 5
    /\ handleMemoryOperation "memory-subtract" (with_currentValue "2" st1)
       = ret st2
    /\ memory st2 = JS.of_Z 3
    /\ handleMemoryOperation "memory-recall" st2 = ret st3
    /\ currentValue st3 = "3"
    /\ waitingForNewValue st3 = true
    /\ memory st3 = JS.of_Z 3.
Proof.
  apply (proj1 memory_round_trip initialState). reflexivity.
Defined.

(* ------------------------------------------------------------------ *)
(** ** Square root *)

Lemma le_zero_not_lt (x : JS.number) :
  JS.le (JS.of_Z 0) x = true -> JS.lt x (JS.of_Z 0) = false.
Proof.
  destruct x as [s|[]| |[] m e]; vm_compute; congruence.
Qed.

(* ------------------------------------------------------------------ *)
(** ** What every reachable component satisfies *)

Lemma numeric_text_toString (x : JS.number) : numeric_text (JS.toString x).
Proof. right. exists x. reflexivity. Qed.

Lemma numeric_text_nonempty (s : string) : numeric_text s -> s <> "".
Proof.
  intros [H|[x ->]].
  - destruct s; [discriminate H|discriminate].
  - apply JSFacts.toString_nonempty.
Qed.

Lemma numeric_text_parses (s : string) :
  numeric_text s -> JS.isNaN (JS.parseFloat s) = false \/ s = "NaN".
Proof.
  intros [H|[x ->]].
  - left. apply JSFacts.parseFloat_digit, H.
  - apply JSFacts.parseFloat_toString.
Qed.

Lemma Forall_firstn {A} (P : A -> Prop) (n : nat) (l : list A) :
  Forall P l -> Forall P (firstn n l).
Proof.
  intros H. revert n.
  induction H as [|x l Hx Hl IH]; intros [|n]; simpl; constructor; auto.
Qed.

Lemma digit_key_starts (num : string) :
  mem_string num digit_keys = true -> JS.starts_with_digit num = true.
Proof.
  unfold mem_string, digit_keys. simpl.
  repeat match goal with
         | |- context [String.eqb num ?k] =>
             destruct (String.eqb_spec num k); [subst; reflexivity|]
         end.
  discriminate.
Qed.

Lemma initialState_inv : state_inv initialState.
Proof.
  constructor; simpl; try (left; reflexivity); try reflexivity;
    try congruence; try constructor; lia.
Qed.

Lemma addToHistory_inv (item : HistoryItem) (st : CalculatorState) :
  (exists x : JS.number, result item = JS.toString x) ->
  state_inv st -> state_inv (addToHistory item st).
Proof.
  intros Hi [Hc Ht Hp Hh Hb].
  constructor; unfold addToHistory;
    cbn [currentValue previousValue operation history waitingForNewValue];
    auto.
  - constructor; [exact Hi|]. apply Forall_firstn, Hh.
  - cbn [List.length]. rewrite length_firstn. lia.
Qed.

Lemma perform_inv (now : Z) (c : Component) (k : call) :
  call_ok k -> state_inv (state c) -> state_inv (state (perform now c k)).
Proof.
  destruct k; simpl; auto.
  intros Hk Hc. apply addToHistory_inv; auto.
Qed.

Lemma fold_perform_inv (now : Z) (log : list call) :
  forall c : Component,
    Forall call_ok log -> state_inv (state c) ->
    state_inv (state (fold_left (perform now) log c)).
Proof.
  induction log as [|k log IH]; intros c Hl Hc; simpl; [exact Hc|].
  inversion Hl; subst. apply IH; auto. apply perform_inv; auto.
Qed.

Lemma setState_inv (now : Z) (updater : CalculatorState -> M CalculatorState)
    (c c' : Component) (log : list call) :
  keeps_inv updater ->
  state_inv (state c) ->
  setState now updater c = (log, Normal c') ->
  state_inv (state c').
Proof.
  intros Hk Hc Hs. unfold setState in Hs.
  destruct (updater (state c)) as [lg [st|e]] eqn:Hu; [|discriminate].
  inversion Hs; subst.
  destruct (Hk _ _ _ Hc Hu) as [Hst Hlog].
  apply fold_perform_inv; auto.
Qed.

Ltac returned :=
  match goal with
  | H : ret _ = (_, Normal _) |- _ => inversion H; subst; clear H
  | H : (_, Normal _) = (_, Normal _) |- _ => inversion H; subst; clear H
  | H : (_, Throw _) = (_, Normal _) |- _ => discriminate H
  end.

Ltac inv_fields :=
  constructor;
  cbn [currentValue previousValue operation history waitingForNewValue];
  auto using numeric_text_toString, JSFacts.toString_nonempty;
  try discriminate; try congruence.

Lemma handleNumber_inv (num : string) :
  JS.starts_with_digit num = true -> keeps_inv (handleNumber num).
Proof.
  intros Hn prev st log [Hc Ht Hp Hh Hb] H. unfold handleNumber in H.
  destruct (waitingForNewValue prev) eqn:Hw; returned;
    (split; [|constructor]); inv_fields.
  - left. exact Hn.
  - left. destruct (currentValue prev =? "0"); [exact Hn|].
    apply JSFacts.starts_with_digit_app; auto.
  - intros _. destruct (currentValue prev =? "0"); [exact Hn|].
    apply JSFacts.starts_with_digit_app; auto.
Qed.

Lemma handleDecimal_inv : keeps_inv handleDecimal.
Proof.
  intros prev st log [Hc Ht Hp Hh Hb] H. unfold handleDecimal in H.
  destruct (waitingForNewValue prev) eqn:Hw;
    [|destruct (negb (has_point (currentValue prev)))]; returned;
    (split; [|constructor]); inv_fields.
  - left. reflexivity.
  - left. apply JSFacts.starts_with_digit_app; auto.
  - intros _. apply JSFacts.starts_with_digit_app; auto.
Qed.

Lemma handleOperation_inv (op : string) : keeps_inv (handleOperation op).
Proof.
  intros prev st log Hinv H.
  pose proof (numeric_text_nonempty _ (inv_current _ Hinv)) as Hne.
  destruct Hinv as [Hc Ht Hp Hh Hb].
  unfold handleOperation in H.
  destruct (operation prev) as [pending|] eqn:Hop.
  - destruct (truthy (Some pending) && negb (waitingForNewValue prev)).
    + unfold bind in H.
      destruct (calculate _ _ pending) as [lg [r|e]] eqn:Hcalc;
        [|discriminate].
      pose proof (calculate_log (JS.parseFloat (previousValue prev))
                    (JS.parseFloat (currentValue prev)) pending) as Hl.
      rewrite Hcalc in Hl. simpl in Hl. subst lg.
      simpl in H. returned.
      split; [|repeat constructor]. inv_fields.
    + simpl in H. returned. split; [|repeat constructor]. inv_fields.
  - simpl in H. returned. split; [|repeat constructor]. inv_fields.
Qed.

Lemma handleEquals_inv : keeps_inv handleEquals.
Proof.
  intros prev st log Hinv H.
  unfold handleEquals in H.
  destruct (operation prev) as [pending|] eqn:Hop;
    [|returned; split; [exact Hinv|constructor]].
  destruct (truthy (Some pending) && negb (previousValue prev =? ""));
    [|returned; split; [exact Hinv|constructor]].
  unfold try_catch, bind in H.
  pose proof (calculate_log (JS.parseFloat (previousValue prev))
                (JS.parseFloat (currentValue prev)) pending) as Hl.
  destruct (calculate _ _ pending) as [lg [r|e]] eqn:Hcalc;
    simpl in Hl; subst lg; simpl in H; returned.
  - destruct Hinv as [Hc Ht Hp Hh Hb].
    split; [inv_fields|].
    repeat constructor. exists r. reflexivity.
  - split; [exact Hinv|]. repeat constructor.
Qed.

Lemma handleClear_inv : keeps_inv handleClear.
Proof.
  intros prev st log [Hc Ht Hp Hh Hb] H. unfold handleClear in H.
  returned. split; [|constructor]. inv_fields. left. reflexivity.
Qed.

Lemma handleAdvancedOperation_inv (o : string) :
  keeps_inv (handleAdvancedOperation o).
Proof.
  intros prev st log Hinv H.
  unfold handleAdvancedOperation in H.
  destruct (o =? "percentage");
    [|destruct (o =? "square-root");
      [destruct (JS.lt _ _)|destruct (o =? "square")]];
    simpl in H; returned;
    try (split; [exact Hinv|repeat constructor]);
    destruct Hinv as [Hc Ht Hp Hh Hb];
    (split; [inv_fields|repeat constructor; eexists; reflexivity]).
Qed.

Lemma handleMemoryOperation_inv (o : string) :
  keeps_inv (handleMemoryOperation o).
Proof.
  intros prev st log Hinv H.
  unfold handleMemoryOperation in H.
  repeat match type of H with
         | context [if ?b then _ else _] => destruct b
         end;
    returned; (split; [|constructor]); try exact Hinv;
    destruct Hinv as [Hc Ht Hp Hh Hb]; inv_fields.
Qed.

Lemma clearHistory_inv : keeps_inv clearHistory.
Proof.
  intros prev st log [Hc Ht Hp Hh Hb] H. unfold clearHistory in H.
  returned. split; [|constructor]. inv_fields. simpl. lia.
Qed.

Lemma selectHistoryItem_inv (item : HistoryItem) :
  (exists x : JS.number, result item = JS.toString x) ->
  keeps_inv (selectHistoryItem item).
Proof.
  intros [x Hx] prev st log [Hc Ht Hp Hh Hb] H. unfold selectHistoryItem in H.
  returned. split; [|constructor]. inv_fields.
  rewrite Hx. apply numeric_text_toString.
Qed.

(** Every event the page offers keeps the invariant. *)
Lemma handle_inv (now : Z) (ev : event) (c c' : Component) (log : list call) :
  state_inv (state c) ->
  enabled c ev = true ->
  handle now ev c = (log, Normal c') ->
  state_inv (state c').
Proof.
  intros Hinv He H.
  destruct ev; cbn [handle enabled] in H, He.
  - eapply setState_inv; eauto using handleNumber_inv, digit_key_starts.
  - eapply setState_inv; eauto using handleOperation_inv.
  - eapply setState_inv; eauto using handleDecimal_inv.
  - eapply setState_inv; eauto using handleEquals_inv.
  - inversion H; subst. simpl.
    constructor; simpl; auto; try discriminate; try congruence.
    + left. reflexivity.
    + destruct Hinv; auto.
    + destruct Hinv; auto.
  - eapply setState_inv; eauto using handleAdvancedOperation_inv.
  - eapply setState_inv; eauto using handleMemoryOperation_inv.
  - inversion H; subst. exact Hinv.
  - eapply setState_inv; eauto using clearHistory_inv.
  - destruct (nth_error (history (state c)) index) as [item|] eqn:Hn.
    + eapply setState_inv; eauto.
      apply selectHistoryItem_inv.
      apply nth_error_In in Hn.
      pose proof (inv_history _ Hinv) as Hh.
      rewrite Forall_forall in Hh. apply Hh, Hn.
    + inversion H; subst. exact Hinv.
  - inversion H; subst. exact Hinv.
Qed.

Lemma reachable_inv (c : Component) : reachable c -> state_inv (state c).
Proof.
  induction 1 as [|c c' now ev log Hr IH He Hh].
  - apply initialState_inv.
  - eapply handle_inv; eauto.
Qed.

(* ------------------------------------------------------------------ *)
(** ** The display *)

(** [9] squared ten times overflows: the display reads ["Infinity"]. *)
Lemma overflow_reached :
  exists (log : list call) (c : Component),
    run (at_times 0 keys_overflow) initialComponent = (log, Normal c)
    /\ offered (at_times 0 keys_overflow) initialComponent = true
    /\ currentValue (state c) = "Infinity".
Proof.
  eexists. eexists. split; [vm_compute; reflexivity|].
  split; vm_compute; reflexivity.
Qed.

(** From there, [-] and [=] make it read ["NaN"]. *)
Lemma nan_reached :
  exists (log : list call) (c : Component),
    run (at_times 0 keys_nan) initialComponent = (log, Normal c)
    /\ offered (at_times 0 keys_nan) initialComponent = true
    /\ currentValue (state c) = "NaN".
Proof.
  eexists. eexists. split; [vm_compute; reflexivity|].
  split; vm_compute; reflexivity.
Qed.

(** C3, as the specification words it, does not hold: there is a
    reachable state whose [currentValue] is not ["0"] and does not parse to
    a finite number. *)
Lemma display_not_always_finite :
  ~ (forall c : Component,
        reachable c ->
        JS.isFinite (JS.parseFloat (currentValue (state c))) = true
        \/ currentValue (state c) = "0").
Proof.
  intros H.
  destruct overflow_reached as (log & c & Hrun & Hoff & Hcur).
  assert (Hr : reachable c)
    by exact (run_reachable _ _ _ _ reachable_initial Hoff Hrun).
  specialize (H c Hr). rewrite Hcur in H.
  destruct H as [H|H]; discriminate H.
Qed.

Lemma display_can_read_NaN :
  exists c : Component,
    reachable c
    /\ currentValue (state c) = "NaN"
    /\ JS.isNaN (JS.parseFloat (currentValue (state c))) = true.
Proof.
  destruct nan_reached as (log & c & Hrun & Hoff & Hcur).
  exists c. split; [|split].
  - exact (run_reachable _ _ _ _ reachable_initial Hoff Hrun).
  - exact Hcur.
  - rewrite Hcur. reflexivity.
Qed.

(** C3, amended: in every reachable state [parseFloat] reads a number from
    [currentValue], finite or infinite, unless [currentValue] is the text
    ["NaN"]. *)
Theorem display_parses_unless_NaN (c : Component) :
  reachable c ->
  JS.isNaN (JS.parseFloat (currentValue (state c))) = false
  \/ currentValue (state c) = "NaN".
Proof.
  intros H. apply numeric_text_parses, (inv_current _ (reachable_inv c H)).
Qed.

Lemma display_parses_unless_NaN_initial :
  JS.isNaN (JS.parseFloat (currentValue (state initialComponent))) = false
  \/ currentValue (state initialComponent) = "NaN".
Proof.
  apply (display_parses_unless_NaN initialComponent). apply reachable_initial.
Defined.

(** C10: in every reachable state [currentValue] is not empty, and while
    an operation is pending [previousValue] is not empty either. *)
Theorem display_never_empty (c : Component) :
  reachable c ->
  currentValue (state c) <> ""
  /\ (operation (state c) <> None -> previousValue (state c) <> "").
Proof.
  intros H. pose proof (reachable_inv c H) as [Hc _ Hp _ _].
  split; [apply numeric_text_nonempty, Hc|exact Hp].
Qed.

Lemma display_never_empty_initial :
  currentValue (state initialComponent) <> ""
  /\ (operation (state initialComponent) <> None ->
      previousValue (state initialComponent) <> "").
Proof.
  apply (display_never_empty initialComponent). apply reachable_initial.
Defined.

(* ------------------------------------------------------------------ *)
(** ** The history *)

Lemma firstn_app_firstn {A} (l h : list A) :
  forall n m : nat,
    (n <= List.length l + m)%nat ->
    firstn n (l ++ firstn m h) = firstn n (l ++ h).
Proof.
  induction l as [|x l IH]; intros n m Hnm; cbn [List.length] in Hnm.
  - simpl. rewrite firstn_firstn. f_equal. lia.
  - destruct n as [|n]; [reflexivity|].
    cbn [app firstn]. f_equal. apply IH. lia.
Qed.

Lemma addToHistory_history (item : HistoryItem) (st : CalculatorState) :
  history (addToHistory item st) = firstn 50 (item :: history st).
Proof. reflexivity. Qed.

(** The history after [item] and then [items] were added: the newest
    first, cut after 50. *)
Lemma addAllToHistory_history (items : list HistoryItem) :
  forall (item : HistoryItem) (st : CalculatorState),
    history (addAllToHistory (item :: items) st)
    = firstn 50 (rev (item :: items) ++ history st).
Proof.
  unfold addAllToHistory.
  induction items as [|next items IH]; intros item st.
  - reflexivity.
  - change (fold_left (fun s i => addToHistory i s) (item :: next :: items) st)
      with (fold_left (fun s i => addToHistory i s) (next :: items)
              (addToHistory item st)).
    rewrite IH.
    change (history (addToHistory item st))
      with (item :: firstn 49 (history st)).
    cbn [rev]. rewrite <- !app_assoc. cbn [app].
    change (rev items ++ next :: item :: firstn 49 (history st))%list
      with (rev items ++ [next; item] ++ firstn 49 (history st))%list.
    change (rev items ++ next :: item :: history st)%list
      with (rev items ++ [next; item] ++ history st)%list.
    rewrite !app_assoc.
    apply firstn_app_firstn.
    rewrite length_app. cbn [List.length]. lia.
Qed.

(* ------------------------------------------------------------------ *)
(** ** What [setState] leaves alone *)

(** The calls an updater logs touch no field of the state but [history]. *)
Lemma perform_fields (now : Z) (c : Component) (k : call) :
  currentValue (state (perform now c k)) = currentValue (state c)
  /\ previousValue (state (perform now c k)) = previousValue (state c)
  /\ operation (state (perform now c k)) = operation (state c)
  /\ memory (state (perform now c k)) = memory (state c)
  /\ waitingForNewValue (state (perform now c k))
     = waitingForNewValue (state c).
Proof. destruct k; repeat split. Qed.

Lemma fold_perform_fields (now : Z) (log : list call) :
  forall c : Component,
    currentValue (state (fold_left (perform now) log c))
      = currentValue (state c)
    /\ previousValue (state (fold_left (perform now) log c))
       = previousValue (state c)
    /\ operation (state (fold_left (perform now) log c)) = operation (state c)
    /\ memory (state (fold_left (perform now) log c)) = memory (state c)
    /\ waitingForNewValue (state (fold_left (perform now) log c))
       = waitingForNewValue (state c).
Proof.
  induction log as [|k log IH]; intros c; cbn [fold_left].
  - repeat split.
  - destruct (IH (perform now c k)) as (H1 & H2 & H3 & H4 & H5).
    destruct (perform_fields now c k) as (K1 & K2 & K3 & K4 & K5).
    repeat split; congruence.
Qed.

Lemma fold_perform_history (now : Z) (log : list call) :
  forall c : Component,
    existsb is_AddToHistory log = false ->
    history (state (fold_left (perform now) log c)) = history (state c).
Proof.
  induction log as [|k log IH]; intros c H; cbn [fold_left]; [reflexivity|].
  cbn [existsb] in H. apply orb_false_iff in H. destruct H as [Hk Hl].
  rewrite (IH _ Hl). destruct k; try reflexivity. discriminate Hk.
Qed.

(** [setState] succeeds exactly when the updater does, and then performs
    the updater's calls on the state it returned. *)
Lemma setState_Normal (now : Z) (updater : CalculatorState -> M CalculatorState)
    (c c' : Component) (log : list call) :
  setState now updater c = (log, Normal c') ->
  exists st : CalculatorState,
    updater (state c) = (log, Normal st)
    /\ c' = fold_left (perform now) log (with_state c st).
Proof.
  unfold setState. intros H.
  destruct (updater (state c)) as [lg [st|e]]; [|discriminate].
  inversion H; subst. exists st. split; reflexivity.
Qed.

(** What [addToHistory] and an updater keep, [setState] keeps. *)
Lemma setState_preserves (P : CalculatorState -> Prop) (now : Z)
    (updater : CalculatorState -> M CalculatorState)
    (c c' : Component) (log : list call) :
  (forall item st, P st -> P (addToHistory item st)) ->
  (forall prev st lg, P prev -> updater prev = (lg, Normal st) -> P st) ->
  P (state c) ->
  setState now updater c = (log, Normal c') ->
  P (state c').
Proof.
  intros Ha Hu Hc Hs.
  destruct (setState_Normal _ _ _ _ _ Hs) as (st & Hup & ->).
  assert (Hst : P (state (with_state c st))) by (exact (Hu _ _ _ Hc Hup)).
  clear Hup Hs. generalize dependent (with_state c st).
  induction log as [|k log IH]; intros c0 H0; cbn [fold_left]; [exact H0|].
  apply IH. destruct k; cbn [perform state with_state]; auto.
Qed.

(* ------------------------------------------------------------------ *)
(** ** The decimal point *)

Lemma has_point_app_point (s : string) : has_point (s ++ ".") = true.
Proof.
  induction s as [|c r IH]; simpl; [reflexivity|].
  rewrite IH. apply orb_true_r.
Qed.

(** X1: the point key is idempotent: pressed again right away it changes
    nothing and logs nothing, whatever the state. *)
Theorem handleDecimal_twice (prev : CalculatorState) :
  exists st : CalculatorState,
    handleDecimal prev = ret st
    /\ handleDecimal st = ret st
    /\ has_point (currentValue st) = true.
Proof.
  destruct (waitingForNewValue prev) eqn:Hw;
    [|destruct (has_point (currentValue prev)) eqn:Hp].
  - eexists. unfold handleDecimal at 1. rewrite Hw.
    split; [reflexivity|]. split; reflexivity.
  - exists prev. unfold handleDecimal. rewrite Hw, Hp. auto.
  - eexists. unfold handleDecimal at 1. rewrite Hw, Hp.
    split; [reflexivity|].
    unfold handleDecimal.
    cbn [waitingForNewValue currentValue]. rewrite ?Hw, has_point_app_point.
    split; reflexivity.
Qed.

(* ------------------------------------------------------------------ *)
(** ** Typed text *)

Lemma digit_key_char (num : string) :
  mem_string num digit_keys = true ->
  exists d : ascii, num = String d "" /\ JS.is_digit d = true.
Proof.
  unfold mem_string, digit_keys. cbn [existsb].
  repeat match goal with
         | |- context [String.eqb num ?k] =>
             destruct (String.eqb_spec num k);
             [subst; eexists; split; reflexivity|]
         end.
  discriminate.
Qed.

Lemma all_digits_app (r : string) (d : ascii) :
  all_digits r = true -> JS.is_digit d = true ->
  all_digits (r ++ String d "") = true.
Proof.
  intros Hr Hd. induction r as [|c r IH]; simpl in *.
  - rewrite Hd. reflexivity.
  - apply andb_true_iff in Hr. destruct Hr as [Hc Hr].
    rewrite Hc, (IH Hr). reflexivity.
Qed.

Lemma digits_point_digits_app (r : string) (d : ascii) :
  digits_point_digits r = true -> JS.is_digit d = true ->
  digits_point_digits (r ++ String d "") = true.
Proof.
  intros Hr Hd. induction r as [|c r IH]; simpl in *.
  - rewrite Hd. reflexivity.
  - destruct (JS.is_digit c); [exact (IH Hr)|].
    apply andb_true_iff in Hr. destruct Hr as [Hc Hr].
    rewrite Hc, (all_digits_app r d Hr Hd). reflexivity.
Qed.

Lemma digits_point_digits_app_point (r : string) :
  has_point r = false -> digits_point_digits r = true ->
  digits_point_digits (r ++ ".") = true.
Proof.
  induction r as [|c r IH]; simpl; intros Hp Hr; [reflexivity|].
  apply orb_false_iff in Hp. destruct Hp as [Hc Hp].
  destruct (JS.is_digit c); [exact (IH Hp Hr)|].
  rewrite Hc in Hr. discriminate Hr.
Qed.

Lemma typed_text_app_digit (s : string) (d : ascii) :
  typed_text s = true -> s <> "0" -> JS.is_digit d = true ->
  typed_text (s ++ String d "") = true.
Proof.
  destruct s as [|c r]; [discriminate|]. cbn [typed_text append].
  intros H Hs Hd.
  apply andb_true_iff in H. destruct H as [H Hz].
  apply andb_true_iff in H. destruct H as [Hc Hr].
  rewrite Hc, (digits_point_digits_app r d Hr Hd). cbn [andb].
  destruct (Ascii.eqb_spec c "0") as [->|_]; [|reflexivity].
  destruct r as [|c2 r2]; [congruence|exact Hz].
Qed.

Lemma typed_text_app_point (s : string) :
  typed_text s = true -> has_point s = false ->
  typed_text (s ++ ".") = true.
Proof.
  destruct s as [|c r]; [discriminate|]. cbn [typed_text append has_point].
  intros H Hp.
  apply orb_false_iff in Hp. destruct Hp as [_ Hp].
  apply andb_true_iff in H. destruct H as [H Hz].
  apply andb_true_iff in H. destruct H as [Hc Hr].
  rewrite Hc, (digits_point_digits_app_point r Hp Hr). cbn [andb].
  destruct (Ascii.eqb c "0"); [|reflexivity].
  destruct r as [|c2 r2]; [reflexivity|exact Hz].
Qed.

Lemma typed_text_digit_key (num : string) :
  mem_string num digit_keys = true -> typed_text num = true.
Proof.
  intros H. destruct (digit_key_char num H) as (d & -> & Hd).
  cbn [typed_text]. rewrite Hd. cbn [digits_point_digits andb].
  destruct (Ascii.eqb d "0"); reflexivity.
Qed.

Lemma handle_typing_inv (now : Z) (ev : event) (c c' : Component)
    (log : list call) :
  typing_inv (state c) ->
  enabled c ev = true ->
  handle now ev c = (log, Normal c') ->
  typing_inv (state c').
Proof.
  intros Hinv He H.
  assert (Ha : forall item st, typing_inv st -> typing_inv (addToHistory item st))
    by (intros item st Hst; exact Hst).
  destruct ev; cbn [handle enabled] in H, He.
  - apply (setState_preserves typing_inv _ _ _ _ _ Ha) in H; auto.
    intros prev st lg Hp Hu. unfold handleNumber in Hu.
    destruct (digit_key_char num He) as (d & -> & Hd).
    destruct (waitingForNewValue prev) eqn:Hw; inversion Hu; subst;
      intros _; cbn [currentValue].
    + apply typed_text_digit_key, He.
    + destruct (String.eqb_spec (currentValue prev) "0") as [E|E].
      * apply typed_text_digit_key, He.
      * apply typed_text_app_digit; auto.
  - apply (setState_preserves typing_inv _ _ _ _ _ Ha) in H; auto.
    intros prev st lg Hp Hu. unfold handleOperation in Hu.
    assert (Hw : waitingForNewValue st = true).
    { destruct (operation prev) as [pending|];
        [destruct (truthy (Some pending) && negb (waitingForNewValue prev))|];
        [unfold bind in Hu;
         destruct (calculate _ _ pending) as [lg0 [r|e]]; [|discriminate]| |];
        cbn in Hu; inversion Hu; reflexivity. }
    intros Hf. congruence.
  - apply (setState_preserves typing_inv _ _ _ _ _ Ha) in H; auto.
    intros prev st lg Hp Hu. unfold handleDecimal in Hu.
    destruct (waitingForNewValue prev) eqn:Hw;
      [|destruct (has_point (currentValue prev)) eqn:Hpt];
      cbn in Hu; inversion Hu; subst; intros Hf; cbn [currentValue].
    + reflexivity.
    + apply Hp, Hw.
    + apply typed_text_app_point; auto.
  - apply (setState_preserves typing_inv _ _ _ _ _ Ha) in H; auto.
    intros prev st lg Hp Hu. unfold handleEquals in Hu.
    destruct (operation prev) as [pending|]; [|inversion Hu; subst; exact Hp].
    destruct (truthy (Some pending) && negb (previousValue prev =? ""));
      [|inversion Hu; subst; exact Hp].
    unfold try_catch, bind in Hu.
    destruct (calculate _ _ pending) as [lg0 [r|e]];
      cbn in Hu; inversion Hu; subst; [|exact Hp].
    intros Hf. discriminate Hf.
  - unfold bind, setState, handleClear, call_setter, ret in H.
    cbn in H. inversion H; subst. intros _. reflexivity.
  - apply (setState_preserves typing_inv _ _ _ _ _ Ha) in H; auto.
    intros prev st lg Hp Hu. unfold handleAdvancedOperation in Hu.
    destruct (operation_ =? "percentage");
      [|destruct (operation_ =? "square-root");
        [destruct (JS.lt _ _)|destruct (operation_ =? "square")]];
      cbn in Hu; inversion Hu; subst; try exact Hp;
      intros Hf; discriminate Hf.
  - apply (setState_preserves typing_inv _ _ _ _ _ Ha) in H; auto.
    intros prev st lg Hp Hu. unfold handleMemoryOperation in Hu.
    repeat match type of Hu with
           | context [if ?b then _ else _] => destruct b
           end;
      inversion Hu; subst; try exact Hp; intros Hf; discriminate Hf.
  - inversion H; subst. exact Hinv.
  - apply (setState_preserves typing_inv _ _ _ _ _ Ha) in H; auto.
    intros prev st lg Hp Hu. inversion Hu; subst. exact Hp.
  - destruct (nth_error (history (state c)) index) as [item|].
    + apply (setState_preserves typing_inv _ _ _ _ _ Ha) in H; auto.
      intros prev st lg Hp Hu. inversion Hu; subst.
      intros Hf; discriminate Hf.
    + inversion H; subst. exact Hinv.
  - inversion H; subst. exact Hinv.
Qed.

(** X2: in every reachable state that is not waiting for a new value, the
    display is text as the keys build it: it begins with a digit, has at
    most one point and no zero in front of another digit. *)
Theorem typed_display_is_well_formed (c : Component) :
  reachable c ->
  waitingForNewValue (state c) = false ->
  typed_text (currentValue (state c)) = true.
Proof.
  induction 1 as [|c c' now ev log Hr IH He Hh].
  - reflexivity.
  - exact (handle_typing_inv now ev c c' log IH He Hh).
Qed.

Lemma typed_display_is_well_formed_initial :
  typed_text (currentValue (state initialComponent)) = true.
Proof.
  apply (typed_display_is_well_formed initialComponent).
  - apply reachable_initial.
  - reflexivity.
Defined.

(* ------------------------------------------------------------------ *)
(** ** Digit keys *)

Lemma with_currentValue_same (st : CalculatorState) :
  with_currentValue (currentValue st) st = st.
Proof. destruct st; reflexivity. Qed.

Lemma run_cons_silent (now : Z) (ev : event) (rest : list (Z * event))
    (c c1 : Component) :
  handle now ev c = ([], Normal c1) ->
  run ((now, ev) :: rest) c = run rest c1.
Proof.
  intros H. cbn [run]. unfold bind. rewrite H.
  destruct (run rest c1) as [log r]. reflexivity.
Qed.

Lemma concat_cons (d : string) (rest : list string) :
  concat "" (d :: rest) = d ++ concat "" rest.
Proof.
  destruct rest as [|d2 rest]; cbn [concat].
  - induction d as [|a d IH]; cbn [append]; [reflexivity|].
    rewrite <- IH. reflexivity.
  - reflexivity.
Qed.

Lemma append_assoc (a b c : string) : (a ++ b) ++ c = a ++ (b ++ c).
Proof.
  induction a as [|x a IH]; cbn [append]; [reflexivity|].
  rewrite IH. reflexivity.
Qed.

(** A digit key on a display that is being typed and is not ["0"]. *)
Lemma handle_digit_appends (now : Z) (d : string) (c : Component) :
  waitingForNewValue (state c) = false ->
  currentValue (state c) <> "0" ->
  handle now (PressNumber d) c
  = ([], Normal (with_state c
                   (with_currentValue (currentValue (state c) ++ d) (state c)))).
Proof.
  intros Hw Hz. cbn [handle]. unfold setState, handleNumber.
  rewrite Hw. apply String.eqb_neq in Hz. rewrite Hz.
  cbn. unfold with_currentValue. rewrite Hw. reflexivity.
Qed.

Lemma digits_append (start : Z) (ds : list string) :
  forall (offset : Z) (c : Component),
    Forall (fun d => mem_string d digit_keys = true) ds ->
    waitingForNewValue (state c) = false ->
    currentValue (state c) <> "0" ->
    currentValue (state c) <> "" ->
    run (at_times_from start offset (map PressNumber ds)) c
    = ([], Normal (with_state c
                     (with_currentValue
                        (currentValue (state c) ++ concat "" ds) (state c)))).
Proof.
  induction ds as [|d rest IH]; intros offset c Hds Hw Hz He.
  - cbn [map at_times_from run concat].
    assert (E : currentValue (state c) ++ "" = currentValue (state c)).
    { generalize (currentValue (state c)) as s.
      induction s as [|a s IHs]; cbn [append]; congruence. }
    rewrite E, with_currentValue_same, with_state_same. reflexivity.
  - inversion Hds as [|d' rest' Hd Hrest]; subst.
    cbn [map at_times_from].
    rewrite (run_cons_silent _ _ _ _ _ (handle_digit_appends _ d c Hw Hz)).
    rewrite IH; cbn [state with_state with_currentValue currentValue
                       waitingForNewValue]; auto.
    + rewrite concat_cons, append_assoc.
      destruct c as [st sh er pc tm]; destruct st; reflexivity.
    + destruct (digit_key_char d Hd) as (a & -> & _).
      destruct (currentValue (state c)) as [|x [|y s]]; cbn [append];
        try congruence; discriminate.
    + destruct (currentValue (state c)); [congruence|discriminate].
Qed.

(** A digit key on the display ["0"]. *)
Lemma handle_digit_on_zero (now : Z) (d : string) (c : Component) :
  waitingForNewValue (state c) = false ->
  currentValue (state c) = "0" ->
  handle now (PressNumber d) c
  = ([], Normal (with_state c (with_currentValue d (state c)))).
Proof.
  intros Hw Hz. cbn [handle]. unfold setState, handleNumber.
  rewrite Hw, Hz. cbn. unfold with_currentValue. rewrite Hw. reflexivity.
Qed.

Lemma digits_on_zero (start : Z) (ds : list string) :
  forall (offset : Z) (c : Component),
    Forall (fun d => mem_string d digit_keys = true) ds ->
    waitingForNewValue (state c) = false ->
    currentValue (state c) = "0" ->
    run (at_times_from start offset (map PressNumber ds)) c
    = ([], Normal (with_state c
                     (with_currentValue (drop_leading_zeros ds) (state c)))).
Proof.
  induction ds as [|d rest IH]; intros offset c Hds Hw Hz.
  - cbn [map at_times_from run drop_leading_zeros].
    rewrite <- Hz, with_currentValue_same, with_state_same. reflexivity.
  - inversion Hds as [|d' rest' Hd Hrest]; subst.
    cbn [map at_times_from].
    rewrite (run_cons_silent _ _ _ _ _ (handle_digit_on_zero _ d c Hw Hz)).
    cbn [drop_leading_zeros].
    destruct (String.eqb_spec d "0") as [->|Hd0].
    + rewrite IH; cbn [state with_state with_currentValue currentValue
                         waitingForNewValue]; auto.
    + rewrite digits_append;
        cbn [state with_state with_currentValue currentValue
               waitingForNewValue]; auto.
      * rewrite concat_cons. reflexivity.
      * destruct (digit_key_char d Hd) as (a & -> & _). discriminate.
Qed.

(** X3: on a display that reads ["0"] (after clear, say) or that waits for
    a new value (after an operator or a result), the digit keys [ds] put
    their own digits on the display, without the zeros they begin with, and
    touch nothing else. *)
Theorem digits_show_as_typed (start : Z) (ds : list string) (c : Component) :
  ds <> [] ->
  Forall (fun d => mem_string d digit_keys = true) ds ->
  waitingForNewValue (state c) = true \/ currentValue (state c) = "0" ->
  exists c' : Component,
    run (at_times start (map PressNumber ds)) c = ([], Normal c')
    /\ state c'
       = {| currentValue := drop_leading_zeros ds;
            previousValue := previousValue (state c);
            operation := operation (state c);
            memory := memory (state c);
            history := history (state c);
            waitingForNewValue := false |}.
Proof.
  intros Hne Hds Hc.
  destruct (waitingForNewValue (state c)) eqn:Hw.
  - destruct ds as [|d rest]; [congruence|].
    inversion Hds as [|d' rest' Hd Hrest]; subst.
    assert (H1 : handle (start + 0) (PressNumber d) c
                 = ([], Normal
                          (with_state c
                             {| currentValue := d;
                                previousValue := previousValue (state c);
                                operation := operation (state c);
                                memory := memory (state c);
                                history := history (state c);
                                waitingForNewValue := false |}))).
    { cbn [handle]. unfold setState, handleNumber. rewrite Hw. reflexivity. }
    unfold at_times. cbn [map at_times_from].
    rewrite (run_cons_silent _ _ _ _ _ H1).
    cbn [drop_leading_zeros].
    destruct (String.eqb_spec d "0") as [->|Hd0].
    + rewrite digits_on_zero; auto.
      eexists. split; reflexivity.
    + rewrite digits_append; auto.
      * eexists. split; [reflexivity|].
        cbn [state with_state with_currentValue currentValue previousValue
               operation memory history waitingForNewValue].
        rewrite concat_cons. reflexivity.
      * destruct (digit_key_char d Hd) as (a & -> & _). discriminate.
  - destruct Hc as [Hc|Hc]; [discriminate|].
    unfold at_times. rewrite digits_on_zero; auto.
    eexists. split; [reflexivity|].
    unfold with_currentValue. cbn [state with_state]. rewrite Hw. reflexivity.
Qed.

Lemma digits_show_as_typed_007 :
  exists c' : Component,
    run (at_times 0 (map PressNumber ["0"; "0"; "7"; "0"])) initialComponent
      = ([], Normal c')
    /\ state c'
       = {| currentValue := "70";
            previousValue := ""; operation := None; memory := JS.of_Z 0;
            history := []; waitingForNewValue := false |}.
Proof.
  apply (digits_show_as_typed 0 ["0"; "0"; "7"; "0"] initialComponent).
  - discriminate.
  - repeat constructor.
  - right. reflexivity.
Defined.

(* ------------------------------------------------------------------ *)
(** ** Errors *)

Lemma setState_Throw (now : Z) (updater : CalculatorState -> M CalculatorState)
    (c : Component) (log : list call) (e : string) :
  setState now updater c = (log, Throw e) ->
  updater (state c) = (log, Throw e).
Proof.
  unfold setState.
  destruct (updater (state c)) as [lg [st|e0]]; [discriminate|].
  intros H; inversion H; reflexivity.
Qed.

(** The only error [calculate] throws. *)
Lemma calculate_throws (a b : JS.number) (op : string) (log : list call)
    (e : string) :
  calculate a b op = (log, Throw e) ->
  e = "Cannot divide by zero"
  /\ op = "/" /\ JS.strict_eq b (JS.of_Z 0) = true.
Proof.
  unfold calculate.
  destruct (op =? "+"); [discriminate|].
  destruct (op =? "-"); [discriminate|].
  destruct (op =? "*"); [discriminate|].
  destruct (String.eqb_spec op "/") as [->|_]; [|discriminate].
  destruct (JS.strict_eq b (JS.of_Z 0)); [|discriminate].
  intros H; inversion H; auto.
Qed.

(** Every case of an updater that is applied to [prev] in [Hu]. *)
Ltac updater_cases Hu :=
  unfold handleNumber, handleOperation, handleDecimal, handleEquals,
    handleClear, handleAdvancedOperation, handleMemoryOperation,
    clearHistory, selectHistoryItem, try_catch, bind, truthy,
    tell, ret, throw in Hu;
  repeat match type of Hu with
         | context [match ?x with _ => _ end] =>
             lazymatch x with
             | context [match _ with _ => _ end] => fail
             | _ => destruct x eqn:?
             end
         end;
  repeat match goal with
         | Hc : calculate ?a ?b ?o = (?l, _) |- _ =>
             let E := fresh in
             pose proof (calculate_log a b o) as E;
             rewrite Hc in E; cbn [fst] in E; subst l
         end;
  repeat match goal with
         | Hc : calculate _ _ _ = (_, Throw ?e) |- _ =>
             let E := fresh in
             destruct (calculate_throws _ _ _ _ _ Hc) as (E & _ & _); subst e
         end;
  cbn in Hu; inversion Hu; subst; clear Hu.

(** X4: a handler lets an error out in one case only: an operator key
    pressed while a division is pending, a divisor has been typed and the
    divisor is zero.  Nothing has been logged by then, and the error is
    "Cannot divide by zero". *)
Theorem only_operator_key_throws (now : Z) (ev : event) (c : Component)
    (log : list call) (e : string) :
  handle now ev c = (log, Throw e) <->
  (exists op : string, ev = PressOperation op)
  /\ operation (state c) = Some "/"
  /\ waitingForNewValue (state c) = false
  /\ JS.strict_eq (JS.parseFloat (currentValue (state c))) (JS.of_Z 0) = true
  /\ log = []
  /\ e = "Cannot divide by zero".
Proof.
  split.
  - intros H.
    destruct ev; cbn [handle] in H;
      try (apply setState_Throw in H; updater_cases H; fail);
      try discriminate H.
    + apply setState_Throw in H.
      unfold handleOperation in H.
      destruct (operation (state c)) as [pending|] eqn:Hop;
        [|discriminate H].
      destruct (truthy (Some pending) && negb (waitingForNewValue (state c)))
        eqn:Hc; [|discriminate H].
      apply andb_true_iff in Hc. destruct Hc as [_ Hw].
      apply negb_true_iff in Hw.
      unfold bind, calculate in H.
      destruct (pending =? "+"); [discriminate H|].
      destruct (pending =? "-"); [discriminate H|].
      destruct (pending =? "*"); [discriminate H|].
      destruct (String.eqb_spec pending "/") as [->|_]; [|discriminate H].
      destruct (JS.strict_eq _ _) eqn:Hz; [|discriminate H].
      inversion H; subst. repeat split; eauto.
    + destruct (nth_error (history (state c)) index);
        [apply setState_Throw in H; updater_cases H|discriminate H].
  - intros ([op ->] & Hop & Hw & Hz & -> & ->).
    cbn [handle]. unfold setState.
    rewrite (handleOperation_divide_by_zero op (state c) Hop Hw Hz).
    reflexivity.
Qed.

Lemma only_operator_key_throws_8_div_0 :
  handle 4 (PressOperation "+")
    (with_state initialComponent
       {| currentValue := "0"; previousValue := "8"; operation := Some "/";
          memory := JS.of_Z 0; history := []; waitingForNewValue := false |})
  = ([], Throw "Cannot divide by zero").
Proof.
  apply (proj2 (only_operator_key_throws 4 (PressOperation "+") _ _ _)).
  repeat split; try reflexivity. exists "+". reflexivity.
Defined.

(** X5: when a handler reports an error, it reports exactly one, "Cannot
    divide by zero" or "Invalid input", which becomes the message shown, and
    the calculator state (display, operation, memory, history) stays as it
    was. *)
Theorem error_leaves_state (now : Z) (ev : event) (c c' : Component)
    (log : list call) :
  handle now ev c = (log, Normal c') ->
  existsb is_ShowError log = true ->
  state c' = state c
  /\ exists m : string,
      log = [ShowError m]
      /\ error c' = Some m
      /\ (m = "Cannot divide by zero" \/ m = "Invalid input").
Proof.
  intros H Hs.
  destruct ev; cbn [handle] in H;
    try (apply setState_Normal in H; destruct H as (st & Hu & ->);
         updater_cases Hu; try discriminate Hs;
         (split; [reflexivity|eexists; repeat split; auto]); fail).
  - unfold bind, setState, handleClear, call_setter, ret in H.
    cbn in H. inversion H; subst. discriminate Hs.
  - inversion H; subst. discriminate Hs.
  - destruct (nth_error (history (state c)) index).
    + apply setState_Normal in H. destruct H as (st & Hu & ->).
      updater_cases Hu. discriminate Hs.
    + inversion H; subst. discriminate Hs.
  - inversion H; subst. discriminate Hs.
Qed.

Lemma error_leaves_state_minus_4 :
  exists c' : Component,
    handle 7 (PressAdvanced "square-root")
      (with_state initialComponent (with_currentValue "-4" initialState))
      = ([ShowError "Invalid input"], Normal c')
    /\ state c' = with_currentValue "-4" initialState.
Proof.
  eexists. split; [vm_compute; reflexivity|].
  apply (error_leaves_state 7 (PressAdvanced "square-root")
           (with_state initialComponent (with_currentValue "-4" initialState))
           _ [ShowError "Invalid input"]).
  - vm_compute. reflexivity.
  - reflexivity.
Defined.

(* ------------------------------------------------------------------ *)
(** ** What each key leaves alone *)

Ltac after_setState H st Hu :=
  apply setState_Normal in H; destruct H as (st & Hu & ->).

(** X6: the memory register changes under the memory keys only. *)
Theorem memory_changes_by_memory_keys_only (now : Z) (ev : event)
    (c c' : Component) (log : list call) :
  handle now ev c = (log, Normal c') ->
  (forall o : string, ev <> PressMemory o) ->
  memory (state c') = memory (state c).
Proof.
  intros H Hev.
  destruct ev; cbn [handle] in H;
    try (after_setState H st Hu;
         rewrite (proj1 (proj2 (proj2 (proj2
                   (fold_perform_fields now log (with_state c st))))));
         updater_cases Hu; reflexivity).
  - unfold bind, setState, handleClear, call_setter, ret in H.
    cbn in H. inversion H; subst. reflexivity.
  - exfalso. exact (Hev operation_ eq_refl).
  - inversion H; subst. reflexivity.
  - destruct (nth_error (history (state c)) index).
    + after_setState H st Hu.
      rewrite (proj1 (proj2 (proj2 (proj2
                (fold_perform_fields now log (with_state c st)))))).
      updater_cases Hu. reflexivity.
    + inversion H; subst. reflexivity.
  - inversion H; subst. reflexivity.
Qed.

Lemma memory_changes_by_memory_keys_only_clear :
  exists (c' : Component) (log : list call),
    handle 0 PressClear
      (with_state initialComponent
         {| currentValue := "7"; previousValue := "2"; operation := Some "+";
            memory := JS.of_Z 5; history := []; waitingForNewValue := false |})
    = (log, Normal c')
    /\ memory (state c') = JS.of_Z 5.
Proof.
  eexists. eexists. split; [reflexivity|].
  eapply (memory_changes_by_memory_keys_only 0 PressClear
            (with_state initialComponent
               {| currentValue := "7"; previousValue := "2";
                  operation := Some "+"; memory := JS.of_Z 5; history := [];
                  waitingForNewValue := false |})).
  - reflexivity.
  - discriminate.
Defined.

(** X7: the pending operation and its first operand change under the
    operator keys, equals and clear only. *)
Theorem pending_changes_by_operator_equals_clear_only (now : Z) (ev : event)
    (c c' : Component) (log : list call) :
  handle now ev c = (log, Normal c') ->
  (forall op : string, ev <> PressOperation op) ->
  ev <> PressEquals ->
  ev <> PressClear ->
  operation (state c') = operation (state c)
  /\ previousValue (state c') = previousValue (state c).
Proof.
  intros H Hop He Hc.
  destruct ev; cbn [handle] in H; try congruence;
    try (after_setState H st Hu;
         destruct (fold_perform_fields now log (with_state c st))
           as (_ & -> & -> & _);
         updater_cases Hu; split; reflexivity).
  - inversion H; subst. split; reflexivity.
  - destruct (nth_error (history (state c)) index).
    + after_setState H st Hu.
      destruct (fold_perform_fields now log (with_state c st))
        as (_ & -> & -> & _).
      updater_cases Hu. split; reflexivity.
    + inversion H; subst. split; reflexivity.
  - inversion H; subst. split; reflexivity.
Qed.

Lemma pending_changes_by_operator_equals_clear_only_digit :
  exists (c' : Component) (log : list call),
    handle 0 (PressNumber "3")
      (with_state initialComponent
         {| currentValue := "5"; previousValue := "5"; operation := Some "+";
            memory := JS.of_Z 0; history := []; waitingForNewValue := true |})
    = (log, Normal c')
    /\ operation (state c') = Some "+" /\ previousValue (state c') = "5".
Proof.
  eexists. eexists. split; [reflexivity|].
  eapply (pending_changes_by_operator_equals_clear_only 0 (PressNumber "3")
            (with_state initialComponent
               {| currentValue := "5"; previousValue := "5";
                  operation := Some "+"; memory := JS.of_Z 0; history := [];
                  waitingForNewValue := true |})).
  - reflexivity.
  - discriminate.
  - discriminate.
  - discriminate.
Defined.

(** X8: the history changes under equals, the advanced keys and the
    history's clear button only. *)
Theorem history_changes_by_results_and_clearHistory_only (now : Z)
    (ev : event) (c c' : Component) (log : list call) :
  handle now ev c = (log, Normal c') ->
  ev <> PressEquals ->
  (forall o : string, ev <> PressAdvanced o) ->
  ev <> PressClearHistory ->
  history (state c') = history (state c).
Proof.
  intros H He Ha Hc.
  destruct ev; cbn [handle] in H; try congruence;
    try (after_setState H st Hu; updater_cases Hu; reflexivity).
  - unfold bind, setState, handleClear, call_setter, ret in H.
    cbn in H. inversion H; subst. reflexivity.
  - inversion H; subst. reflexivity.
  - destruct (nth_error (history (state c)) index).
    + after_setState H st Hu. updater_cases Hu. reflexivity.
    + inversion H; subst. reflexivity.
  - inversion H; subst. reflexivity.
Qed.

Lemma history_changes_by_results_and_clearHistory_only_clear :
  exists (c' : Component) (log : list call),
    handle 9 PressClear
      (with_state initialComponent
         {| currentValue := "16"; previousValue := ""; operation := None;
            memory := JS.of_Z 0;
            history := [{| calculation := "8 * 2"; result := "16";
                           timestamp := 3 |}];
            waitingForNewValue := true |})
    = (log, Normal c')
    /\ history (state c')
       = [{| calculation := "8 * 2"; result := "16"; timestamp := 3 |}].
Proof.
  eexists. eexists. split; [reflexivity|].
  eapply (history_changes_by_results_and_clearHistory_only 9 PressClear
            (with_state initialComponent
               {| currentValue := "16"; previousValue := ""; operation := None;
                  memory := JS.of_Z 0;
                  history := [{| calculation := "8 * 2"; result := "16";
                                 timestamp := 3 |}];
                  waitingForNewValue := true |})).
  - reflexivity.
  - discriminate.
  - discriminate.
  - discriminate.
Defined.

(* ------------------------------------------------------------------ *)
(** ** Keys pressed again *)

(** X9: an operator key right after an operator key only replaces the
    pending operator: nothing is evaluated, display and first operand stay,
    and only the trail is set anew. *)
Theorem operator_key_again_replaces (op1 op2 : string)
    (prev st1 : CalculatorState) (log1 : list call) :
  handleOperation op1 prev = (log1, Normal st1) ->
  handleOperation op2 st1
  = ([SetPreviousCalculation
        (currentValue st1 ++ " " ++ getOperationSymbol op2)],
     Normal {| currentValue := currentValue st1;
               previousValue := previousValue st1;
               operation := Some op2;
               memory := memory st1;
               history := history st1;
               waitingForNewValue := waitingForNewValue st1 |}).
Proof.
  intros H.
  assert (Hst : operation st1 = Some op1
                /\ waitingForNewValue st1 = true
                /\ previousValue st1 = currentValue st1)
    by (updater_cases H; repeat split).
  destruct Hst as (Hop & Hw & Hp).
  unfold handleOperation. rewrite Hop, Hw, Hp, andb_false_r. reflexivity.
Qed.

Lemma operator_key_again_replaces_plus_times :
  handleOperation "*"
    {| currentValue := "5"; previousValue := "5"; operation := Some "+";
       memory := JS.of_Z 0; history := []; waitingForNewValue := true |}
  = ([SetPreviousCalculation "5 Ã—"],
     Normal {| currentValue := "5"; previousValue := "5";
               operation := Some "*"; memory := JS.of_Z 0; history := [];
               waitingForNewValue := true |}).
Proof.
  apply (operator_key_again_replaces "+" "*"
           {| currentValue := "5"; previousValue := ""; operation := None;
              memory := JS.of_Z 0; history := [];
              waitingForNewValue := false |}
           {| currentValue := "5"; previousValue := "5";
              operation := Some "+"; memory := JS.of_Z 0; history := [];
              waitingForNewValue := true |}
           [SetPreviousCalculation "5 +"]).
  reflexivity.
Defined.

Lemma handleEquals_idle (now : Z) (c : Component) :
  operation (state c) = None ->
  handle now PressEquals c = ([], Normal c).
Proof.
  intros H. cbn [handle]. unfold setState, handleEquals. rewrite H.
  cbn. rewrite with_state_same. reflexivity.
Qed.

(** X10: equals does not repeat the last operation: after an equals that
    reported no error, another equals changes nothing, logs nothing and
    adds nothing to the history. *)
Theorem equals_again_is_idle (now now' : Z) (c c1 : Component)
    (log : list call) :
  handle now PressEquals c = (log, Normal c1) ->
  existsb is_ShowError log = false ->
  handle now' PressEquals c1 = ([], Normal c1).
Proof.
  intros H Hs. cbn [handle] in H.
  after_setState H st Hu.
  updater_cases Hu; try discriminate Hs.
  - apply handleEquals_idle. reflexivity.
  - cbn [handle fold_left]. unfold setState, handleEquals.
    cbn [state with_state]. rewrite Heqo.
    unfold truthy. rewrite Heqb. cbn. rewrite !with_state_same. reflexivity.
  - apply handleEquals_idle. cbn. exact Heqo.
Qed.

Lemma equals_again_is_idle_8_times_2 :
  exists c1 : Component,
    handle 5 PressEquals
      (with_state initialComponent
         {| currentValue := "2"; previousValue := "8"; operation := Some "*";
            memory := JS.of_Z 0; history := []; waitingForNewValue := false |})
    = ([AddToHistory "8 Ã— 2" "16"; SetPreviousCalculation ""; SetError None],
       Normal c1)
    /\ handle 6 PressEquals c1 = ([], Normal c1).
Proof.
  eexists. split; [vm_compute; reflexivity|].
  eapply (equals_again_is_idle 5 6
            (with_state initialComponent
               {| currentValue := "2"; previousValue := "8";
                  operation := Some "*"; memory := JS.of_Z 0; history := [];
                  waitingForNewValue := false |})).
  - vm_compute. reflexivity.
  - reflexivity.
Defined.

(* ------------------------------------------------------------------ *)
(** ** What the history holds *)

Lemma newest_first_later (b b' : Z) (h : list HistoryItem) :
  (b <= b')%Z -> newest_first b h -> newest_first b' h.
Proof.
  destruct h as [|item rest]; cbn [newest_first]; [auto|].
  intros Hb [Ht Hr]. split; [lia|exact Hr].
Qed.

Lemma newest_first_firstn (n : nat) :
  forall (b : Z) (h : list HistoryItem),
    newest_first b h -> newest_first b (firstn n h).
Proof.
  induction n as [|n IH]; intros b h H; [exact I|].
  destruct h as [|item rest]; [exact I|].
  cbn [firstn newest_first] in *. destruct H as [Ht Hr]. auto.
Qed.

Lemma perform_newest_first (now : Z) (c : Component) (k : call) :
  newest_first now (history (state c)) ->
  newest_first now (history (state (perform now c k))).
Proof.
  intros H. destruct k; try exact H.
  cbn [perform state with_state addToHistory history newest_first timestamp].
  split; [lia|]. apply newest_first_firstn, H.
Qed.

Lemma fold_perform_newest_first (now : Z) (log : list call) :
  forall c : Component,
    newest_first now (history (state c)) ->
    newest_first now (history (state (fold_left (perform now) log c))).
Proof.
  induction log as [|k log IH]; intros c H; cbn [fold_left]; [exact H|].
  apply IH, perform_newest_first, H.
Qed.

Lemma handle_newest_first (now b : Z) (ev : event) (c c' : Component)
    (log : list call) :
  newest_first b (history (state c)) ->
  (b <= now)%Z ->
  handle now ev c = (log, Normal c') ->
  newest_first now (history (state c')).
Proof.
  intros Hn Hb H.
  apply (newest_first_later b now _ Hb) in Hn.
  destruct ev; cbn [handle] in H;
    try (after_setState H st Hu; apply fold_perform_newest_first;
         updater_cases Hu; first [exact Hn|exact I]).
  - unfold bind, setState, handleClear, call_setter, ret in H.
    cbn in H. inversion H; subst. exact Hn.
  - inversion H; subst. exact Hn.
  - destruct (nth_error (history (state c)) index).
    + after_setState H st Hu. apply fold_perform_newest_first.
      updater_cases Hu. exact Hn.
    + inversion H; subst. exact Hn.
  - inversion H; subst. exact Hn.
Qed.

(** X13: the history is in order of time, newest first: if the events
    come at times that never go back, the items' timestamps never increase
    down the list, and none is later than the last event. *)
Theorem history_is_newest_first (evs : list (Z * event)) :
  forall (t : Z) (c c' : Component) (log : list call),
    newest_first t (history (state c)) ->
    clock_advances t evs ->
    run evs c = (log, Normal c') ->
    newest_first (last_time t evs) (history (state c')).
Proof.
  induction evs as [|[now ev] rest IH]; intros t c c' log Hn Hc Hr.
  - cbn in Hr. inversion Hr; subst. exact Hn.
  - cbn [clock_advances] in Hc. destruct Hc as [Ht Hc].
    cbn [run] in Hr. unfold bind in Hr.
    destruct (handle now ev c) as [log1 [c1|e]] eqn:Hh; [|discriminate Hr].
    destruct (run rest c1) as [log2 r] eqn:Hrest.
    inversion Hr; subst.
    cbn [last_time].
    apply (IH now c1 c' log2); auto.
    exact (handle_newest_first now t ev c c1 log1 Hn Ht Hh).
Qed.

Lemma history_is_newest_first_two_results :
  exists (c' : Component) (log : list call),
    run [(10, PressNumber "9"); (20, PressAdvanced "square");
         (20, PressAdvanced "square-root")]%Z initialComponent
      = (log, Normal c')
    /\ map timestamp (history (state c')) = [20; 20]%Z
    /\ newest_first 20 (history (state c')).
Proof.
  eexists. eexists. split; [vm_compute; reflexivity|].
  split; [reflexivity|].
  eapply (history_is_newest_first
            [(10, PressNumber "9"); (20, PressAdvanced "square");
             (20, PressAdvanced "square-root")]%Z 0 initialComponent).
  - exact I.
  - cbn. lia.
  - vm_compute. reflexivity.
Defined.

(* ------------------------------------------------------------------ *)
(** ** Error timers *)

(** X14: each [showError] starts one timer, due 3000 ms later, and no
    handler ever cancels one: but for the firing of a timer, a handler
    leaves the pending timers in place and adds one per error it reports
    (clear and a new result take the message away, not its timer). *)
Theorem error_timers_are_never_cancelled (now : Z) (ev : event)
    (c c' : Component) (log : list call) :
  handle now ev c = (log, Normal c') ->
  ev <> ErrorTimeout ->
  timers c'
  = (timers c
       ++ map (fun _ => (now + 3000)%Z) (filter is_ShowError log))%list.
Proof.
  assert (Hf : forall (lg : list call) (c0 : Component),
             timers (fold_left (perform now) lg c0)
             = (timers c0
                  ++ map (fun _ => (now + 3000)%Z)
                         (filter is_ShowError lg))%list).
  { induction lg as [|k lg IH]; intros c0; cbn [fold_left filter map].
    - rewrite app_nil_r. reflexivity.
    - rewrite IH. destruct k; cbn [perform timers is_ShowError map];
        try reflexivity.
      rewrite <- app_assoc. reflexivity. }
  intros H Hev.
  destruct ev; cbn [handle] in H; try congruence;
    try (after_setState H st Hu; rewrite Hf; reflexivity).
  - unfold bind, setState, handleClear, call_setter, ret in H.
    cbn in H. inversion H; subst. cbn. rewrite app_nil_r. reflexivity.
  - inversion H; subst. cbn. rewrite app_nil_r. reflexivity.
  - destruct (nth_error (history (state c)) index).
    + after_setState H st Hu. rewrite Hf. reflexivity.
    + inversion H; subst. cbn. rewrite app_nil_r. reflexivity.
Qed.

Lemma error_timers_are_never_cancelled_clear :
  exists (c' : Component) (log : list call),
    handle 1000 PressClear
      {| state := initialState; showHistory := false;
         error := Some "Invalid input"; previousCalculation := "";
         timers := [3000%Z] |}
    = (log, Normal c')
    /\ error c' = None
    /\ timers c' = [3000%Z].
Proof.
  eexists. eexists. split; [reflexivity|]. split; [reflexivity|].
  etransitivity.
  - eapply (error_timers_are_never_cancelled 1000 PressClear
              {| state := initialState; showHistory := false;
                 error := Some "Invalid input"; previousCalculation := "";
                 timers := [3000%Z] |}).
    + reflexivity.
    + discriminate.
  - reflexivity.
Defined.

(* ------------------------------------------------------------------ *)
(** ** The keyboard *)

Lemma digit_range_one_char (a : ascii) :
  String.leb "0" (String a "") && String.leb (String a "") "9"
  = mem_string (String a "") digit_keys.
Proof. destruct a as [[] [] [] [] [] [] [] []]; reflexivity. Qed.

Lemma digit_range_needs_digit (key : string) :
  JS.starts_with_digit key = false ->
  String.leb "0" key && String.leb key "9" = false.
Proof.
  destruct key as [|a r]; [reflexivity|]. cbn [JS.starts_with_digit].
  destruct a as [[] [] [] [] [] [] [] []]; intros H;
    try discriminate H; reflexivity.
Qed.

Lemma handleKeyDown_enabled (key : string) (ev : event) :
  String.length key = 1%nat \/ JS.starts_with_digit key = false ->
  fst (handleKeyDown key) = Some ev ->
  forall c : Component, enabled c ev = true.
Proof.
  intros Hk H c. unfold handleKeyDown in H.
  destruct (String.leb "0" key && String.leb key "9") eqn:Hr.
  - cbn in H. inversion H; subst. cbn [enabled].
    destruct Hk as [Hk|Hk].
    + destruct key as [|a [|b r]]; try discriminate Hk.
      rewrite <- digit_range_one_char. exact Hr.
    + rewrite (digit_range_needs_digit key Hk) in Hr. discriminate Hr.
  - destruct (mem_string key operator_keys) eqn:Ho.
    { cbn in H. inversion H; subst. exact Ho. }
    repeat match type of H with
           | context [if ?b then _ else _] => destruct b
           end;
      cbn in H; inversion H; subst; reflexivity.
Qed.

(** X15: the keyboard reaches nothing the buttons do not: a key that is
    one character long, or that does not begin with a digit (such as
    [Enter] or [Escape]), is ignored or handled as the press of a button the
    page offers, so the component stays a reachable one. *)
Theorem keyboard_stays_reachable (now : Z) (key : string)
    (c c' : Component) (log : list call) :
  reachable c ->
  String.length key = 1%nat \/ JS.starts_with_digit key = false ->
  keyDown now key c = (log, Normal c') ->
  reachable c'.
Proof.
  intros Hr Hk H. unfold keyDown in H.
  destruct (fst (handleKeyDown key)) as [ev|] eqn:He.
  - apply (reachable_step c c' now ev log Hr); [|exact H].
    exact (handleKeyDown_enabled key ev Hk He c).
  - inversion H; subst. exact Hr.
Qed.

Lemma keyboard_stays_reachable_7 :
  exists (c' : Component) (log : list call),
    keyDown 0 "7" initialComponent = (log, Normal c')
    /\ currentValue (state c') = "7"
    /\ reachable c'.
Proof.
  eexists. eexists. split; [reflexivity|]. split; [reflexivity|].
  eapply (keyboard_stays_reachable 0 "7" initialComponent).
  - apply reachable_initial.
  - left. reflexivity.
  - reflexivity.
Defined.

(** X16: the digit test of [handleKeyDown] compares strings, so it lets
    through every key that begins with one of [0]..[8], whatever follows,
    and of the keys that begin with [9] only ["9"] itself; such a key goes
    to [handleNumber] whole. *)
Theorem keyboard_digit_test (a : ascii) (r : string) :
  fst (handleKeyDown (String a r)) = Some (PressNumber (String a r))
  <-> JS.is_digit a = true /\ (a <> "9"%char \/ r = "").
Proof.
  unfold handleKeyDown.
  destruct (JS.is_digit a) eqn:Hd.
  - assert (Ha : (String.leb "0" (String a r) && String.leb (String a r) "9")
                 = if Ascii.eqb a "9"
                   then match r with "" => true | _ => false end
                   else true).
    { destruct a as [[] [] [] [] [] [] [] []]; try discriminate Hd;
        destruct r; reflexivity. }
    rewrite Ha.
    destruct (Ascii.eqb_spec a "9") as [->|Hn].
    + destruct r as [|b r].
      * split; [intros _; split; auto|reflexivity].
      * split.
        -- repeat match goal with
                  | |- context [if ?b then _ else _] => destruct b
                  end; cbn; discriminate.
        -- intros [_ [H|H]]; [congruence|discriminate H].
    + split; [intros _; split; auto|reflexivity].
  - rewrite (digit_range_needs_digit (String a r) Hd).
    split.
    + repeat match goal with
             | |- context [if ?b then _ else _] => destruct b
             end; cbn; discriminate.
    + intros [H _]. discriminate H.
Qed.

Lemma keyboard_digit_test_1x :
  fst (handleKeyDown "1x") = Some (PressNumber "1x").
Proof.
  apply (proj2 (keyboard_digit_test "1" "x")).
  split; [reflexivity|]. left. discriminate.
Defined.

(* ------------------------------------------------------------------ *)
(** ** Equals and the operator keys *)

(** X17: once a second operand has been typed, equals and an operator key
    evaluate the pending operation alike: if equals reports no error, an
    operator key pressed instead does not throw and puts the same text on
    the display. *)
Theorem operator_key_shows_what_equals_shows (op : string)
    (prev st1 : CalculatorState) (log1 : list call) :
  waitingForNewValue prev = false ->
  (operation prev <> None -> previousValue prev <> "") ->
  handleEquals prev = (log1, Normal st1) ->
  existsb is_ShowError log1 = false ->
  exists (log2 : list call) (st2 : CalculatorState),
    handleOperation op prev = (log2, Normal st2)
    /\ currentValue st2 = currentValue st1.
Proof.
  intros Hw Hp H Hs.
  unfold handleOperation. rewrite Hw.
  destruct (operation prev) as [pending|] eqn:Hop.
  - assert (Hne : (previousValue prev =? "") = false)
      by (apply String.eqb_neq, Hp; discriminate).
    unfold handleEquals in H. rewrite Hop, Hne in H.
    cbn [negb] in *. rewrite andb_true_r in *.
    destruct (truthy (Some pending)).
    + unfold try_catch, bind in H. unfold bind.
      pose proof (calculate_log (JS.parseFloat (previousValue prev))
                    (JS.parseFloat (currentValue prev)) pending) as Hl.
      destruct (calculate _ _ pending) as [lg [r|e]];
        cbn [fst] in Hl; subst lg; cbn in H; inversion H; subst.
      * eexists. eexists. split; reflexivity.
      * discriminate Hs.
    + cbn in H. inversion H; subst. eexists. eexists. split; reflexivity.
  - unfold handleEquals in H. rewrite Hop in H. inversion H; subst.
    eexists. eexists. split; reflexivity.
Qed.

Lemma operator_key_shows_what_equals_shows_5_plus_3 :
  exists (log2 : list call) (st2 : CalculatorState),
    handleOperation "*"
      {| currentValue := "3"; previousValue := "5"; operation := Some "+";
         memory := JS.of_Z 0; history := []; waitingForNewValue := false |}
    = (log2, Normal st2)
    /\ currentValue st2 = "8".
Proof.
  apply (operator_key_shows_what_equals_shows "*"
           {| currentValue := "3"; previousValue := "5"; operation := Some "+";
              memory := JS.of_Z 0; history := [];
              waitingForNewValue := false |}
           {| currentValue := "8"; previousValue := ""; operation := None;
              memory := JS.of_Z 0; history := [];
              waitingForNewValue := true |}
           [AddToHistory "5 + 3" "8"; SetPreviousCalculation "";
            SetError None]).
  - reflexivity.
  - discriminate.
  - vm_compute. reflexivity.
  - reflexivity.
Defined.

(** X18: equals does not wait for a second operand: pressed right after
    an operator key, on a display [s] with no operation pending before, it
    applies the operator to the display and itself (so [5 + =] shows 10, and
    [8 / =] shows 1). *)
Theorem equals_right_after_operator (op : string) (prev st1 : CalculatorState)
    (log1 : list call) (r : JS.number) :
  operation prev = None ->
  currentValue prev <> "" ->
  truthy (Some op) = true ->
  handleOperation op prev = (log1, Normal st1) ->
  calculate (JS.parseFloat (currentValue prev))
            (JS.parseFloat (currentValue prev)) op = ret r ->
  handleEquals st1
  = ([AddToHistory
        (currentValue prev ++ " " ++ getOperationSymbol op ++ " "
           ++ currentValue prev)
        (JS.toString r);
      SetPreviousCalculation ""; SetError None],
     Normal {| currentValue := JS.toString r;
               previousValue := "";
               operation := None;
               memory := memory prev;
               history := history prev;
               waitingForNewValue := true |}).
Proof.
  intros Hop Hne Ht H Hc.
  unfold handleOperation in H. rewrite Hop in H. cbn in H.
  inversion H; subst. clear H.
  unfold handleEquals.
  cbn [operation previousValue currentValue memory history].
  apply String.eqb_neq in Hne. rewrite Ht, Hne, Hc. reflexivity.
Qed.

Lemma equals_right_after_operator_5_plus :
  handleEquals
    {| currentValue := "5"; previousValue := "5"; operation := Some "+";
       memory := JS.of_Z 0; history := []; waitingForNewValue := true |}
  = ([AddToHistory "5 + 5" "10"; SetPreviousCalculation ""; SetError None],
     Normal {| currentValue := "10"; previousValue := ""; operation := None;
               memory := JS.of_Z 0; history := [];
               waitingForNewValue := true |}).
Proof.
  apply (equals_right_after_operator "+"
           {| currentValue := "5"; previousValue := ""; operation := None;
              memory := JS.of_Z 0; history := [];
              waitingForNewValue := false |}
           {| currentValue := "5"; previousValue := "5";
              operation := Some "+"; memory := JS.of_Z 0; history := [];
              waitingForNewValue := true |}
           [SetPreviousCalculation "5 +"] (JS.of_Z 10)).
  - reflexivity.
  - discriminate.
  - reflexivity.
  - reflexivity.
  - vm_compute. reflexivity.
Defined.

(* ------------------------------------------------------------------ *)
(** ** The page *)

Lemma handleIn_false (now : Z) (ev : event) (c : Component) :
  handleIn false now ev c = handle now ev c.
Proof. destruct ev; reflexivity. Qed.

(** Run at once, the calls of an updater leave the state it returned. *)
Lemma fold_performEager_state (now : Z) (log : list call) :
  forall c : Component,
    state (fold_left (performEager now) log c) = state c.
Proof.
  induction log as [|k log IH]; intros c; cbn [fold_left]; [reflexivity|].
  rewrite IH. destruct k; reflexivity.
Qed.

Lemma setStateEager_Normal (now : Z)
    (updater : CalculatorState -> M CalculatorState)
    (c c' : Component) (log : list call) :
  setStateEager now updater c = (log, Normal c') ->
  updater (state c) = (log, Normal (state c')).
Proof.
  unfold setStateEager.
  destruct (updater (state c)) as [lg [st|e]]; [|discriminate].
  intros H. inversion H; subst.
  rewrite fold_performEager_state. reflexivity.
Qed.

Lemma setStateIn_inv (eager : bool) (now : Z)
    (updater : CalculatorState -> M CalculatorState)
    (c c' : Component) (log : list call) :
  keeps_inv updater ->
  state_inv (state c) ->
  setStateIn eager now updater c = (log, Normal c') ->
  state_inv (state c').
Proof.
  destruct eager; cbn [setStateIn]; [|apply setState_inv].
  intros Hk Hc H. apply setStateEager_Normal in H.
  exact (proj1 (Hk _ _ _ Hc H)).
Qed.

Lemma handleIn_inv (eager : bool) (now : Z) (ev : event) (c c' : Component)
    (log : list call) :
  state_inv (state c) ->
  enabled c ev = true ->
  handleIn eager now ev c = (log, Normal c') ->
  state_inv (state c').
Proof.
  intros Hinv He H.
  destruct ev; cbn [handleIn enabled] in H, He.
  - eapply setStateIn_inv; eauto using handleNumber_inv, digit_key_starts.
  - eapply setStateIn_inv; eauto using handleOperation_inv.
  - eapply setStateIn_inv; eauto using handleDecimal_inv.
  - eapply setStateIn_inv; eauto using handleEquals_inv.
  - destruct eager; [|eapply (handle_inv now PressClear); eauto].
    inversion H; subst. simpl.
    constructor; simpl; auto; try discriminate; try congruence.
    + left. reflexivity.
    + destruct Hinv; auto.
    + destruct Hinv; auto.
  - eapply setStateIn_inv; eauto using handleAdvancedOperation_inv.
  - eapply setStateIn_inv; eauto using handleMemoryOperation_inv.
  - exact (handle_inv now ToggleHistory c c' log Hinv eq_refl H).
  - eapply setStateIn_inv; eauto using clearHistory_inv.
  - destruct (nth_error (history (state c)) index) as [item|] eqn:Hn.
    + eapply setStateIn_inv; eauto.
      apply selectHistoryItem_inv.
      apply nth_error_In in Hn.
      pose proof (inv_history _ Hinv) as Hh.
      rewrite Forall_forall in Hh. apply Hh, Hn.
    + inversion H; subst. exact Hinv.
  - exact (handle_inv now ErrorTimeout c c' log Hinv He H).
Qed.

Lemma handlePage_Normal (now : Z) (ev : event) (p p' : Page)
    (log : list call) :
  handlePage now ev p = (log, Normal p') ->
  (callsNothing ev (component p) = true /\ p' = p /\ log = [])
  \/ (callsNothing ev (component p) = false
      /\ handleIn (idle p && negb (returnsPrev ev (state (component p))))
                  now ev (component p)
         = (log, Normal (component p'))).
Proof.
  unfold handlePage. intros H.
  destruct (callsNothing ev (component p)).
  - left. inversion H; subst. auto.
  - right. split; [reflexivity|].
    unfold bind in H.
    destruct (handleIn _ now ev (component p)) as [lg [c'|e]];
      [|discriminate H].
    cbn in H. inversion H; subst. cbn. rewrite app_nil_r. reflexivity.
Qed.

(** The invariant of the reachable components holds on every page the
    mounted component gets to as well. *)
Lemma reachablePage_inv (p : Page) :
  reachablePage p -> state_inv (state (component p)).
Proof.
  induction 1 as [|p p' now ev log Hr IH He Hh].
  - apply initialState_inv.
  - destruct (handlePage_Normal now ev p p' log Hh) as [(_ & -> & _)|(_ & H)];
      [exact IH|].
    exact (handleIn_inv _ now ev _ _ log IH He H).
Qed.

(** So the display of every such page parses, and is never empty. *)
Lemma reachablePage_display (p : Page) :
  reachablePage p ->
  (JS.isNaN (JS.parseFloat (currentValue (state (component p)))) = false
   \/ currentValue (state (component p)) = "NaN")
  /\ currentValue (state (component p)) <> ""
  /\ (operation (state (component p)) <> None ->
      previousValue (state (component p)) <> "").
Proof.
  intros H. pose proof (reachablePage_inv p H) as [Hc _ Hp _ _].
  split; [apply numeric_text_parses, Hc|].
  split; [apply numeric_text_nonempty, Hc|exact Hp].
Qed.

Lemma runPage_reachable (evs : list (Z * event)) :
  forall (p p' : Page) (log : list call),
    reachablePage p ->
    offeredPage evs p = true ->
    runPage evs p = (log, Normal p') ->
    reachablePage p'.
Proof.
  induction evs as [|[now ev] rest IH]; intros p p' log Hp Ho Hr;
    cbn [runPage offeredPage] in *.
  - inversion Hr; subst; exact Hp.
  - apply andb_true_iff in Ho. destruct Ho as [He Ho].
    unfold bind in Hr.
    destruct (handlePage now ev p) as [log1 [p1|e]] eqn:Hh; [|discriminate].
    destruct (runPage rest p1) as [log2 r] eqn:Hrest.
    inversion Hr; subst.
    apply (IH p1 p' log2); auto.
    apply (reachablePage_step p p1 now ev log1); auto.
Qed.

(** Where [returnsPrev] says so, the updater hands back [prev]. *)
Lemma returnsPrev_sound (now : Z) (ev : event) (c c' : Component)
    (log : list call) :
  returnsPrev ev (state c) = true ->
  handle now ev c = (log, Normal c') ->
  state c' = state c.
Proof.
  intros Hr H.
  destruct ev; cbn [returnsPrev] in Hr; try discriminate Hr;
    cbn [handle] in H.
  - after_setState H st Hu. unfold handleDecimal in Hu.
    apply andb_true_iff in Hr. destruct Hr as [Hw Hp].
    apply negb_true_iff in Hw. rewrite Hw, Hp in Hu. cbn in Hu.
    inversion Hu; subst. reflexivity.
  - after_setState H st Hu. unfold handleEquals in Hu.
    destruct (operation (state c)) as [pending|];
      [|inversion Hu; subst; reflexivity].
    destruct (truthy (Some pending) && negb (previousValue (state c) =? ""));
      [|inversion Hu; subst; reflexivity].
    apply andb_true_iff in Hr. destruct Hr as [Hd Hz].
    apply String.eqb_eq in Hd. subst pending.
    unfold calculate in Hu. rewrite Hz in Hu. cbn in Hu.
    inversion Hu; subst. reflexivity.
  - after_setState H st Hu. unfold handleAdvancedOperation in Hu.
    destruct (operation_ =? "percentage"); [discriminate Hr|].
    destruct (operation_ =? "square-root").
    + rewrite Hr in Hu. cbn in Hu. inversion Hu; subst. reflexivity.
    + destruct (operation_ =? "square"); [discriminate Hr|].
      cbn in Hu. inversion Hu; subst. reflexivity.
  - after_setState H st Hu. unfold handleMemoryOperation in Hu.
    apply negb_true_iff in Hr. unfold mem_string, memory_keys in Hr.
    cbn [existsb] in Hr.
    repeat (apply orb_false_iff in Hr; destruct Hr as [?E Hr]).
    rewrite E, E0, E1, E2 in Hu. inversion Hu; subst. reflexivity.
  - inversion H; subst. reflexivity.
  - inversion H; subst. reflexivity.
Qed.

Lemma same_error_refl (e : option string) : same_error e e = true.
Proof. destruct e; cbn; [apply String.eqb_refl|reflexivity]. Qed.

(** An event that hands back [prev] and sets nothing anew leaves the page
    idle. *)
Lemma cellsChanged_same (ev : event) (c : Component) :
  returnsPrev ev (state c) = true -> cellsChanged ev c c = false.
Proof.
  intros H. unfold cellsChanged.
  rewrite H, same_error_refl, String.eqb_refl, Bool.eqb_reflx. reflexivity.
Qed.

Lemma calculate_ret_no_division_by_zero (a b : JS.number) (op : string)
    (r : JS.number) :
  calculate a b op = ret r ->
  (op =? "/") && JS.strict_eq b (JS.of_Z 0) = false.
Proof.
  unfold calculate.
  destruct (String.eqb_spec op "+") as [->|_]; [reflexivity|].
  destruct (String.eqb_spec op "-") as [->|_]; [reflexivity|].
  destruct (String.eqb_spec op "*") as [->|_]; [reflexivity|].
  destruct (op =? "/"); [|reflexivity].
  destruct (JS.strict_eq b (JS.of_Z 0)); [discriminate|reflexivity].
Qed.

(* ------------------------------------------------------------------ *)
(** ** Equals on the page *)

(** C6: with a pending operator, a non-empty [previousValue] and an
    evaluation that succeeds with [r], equals calls [addToHistory] with
    ["<previousValue> <symbol> <currentValue>"] and the text of [r], clears
    the error, shows the text of [r], empties [previousValue], drops the
    operator and waits for a new value; but the item gets into the history
    only when the page is not idle: on an idle page (right after an event
    that changed nothing, such as a second point) the history stays as it
    was and the item is lost.  Without a pending operator, or with an empty
    [previousValue], equals changes nothing. *)
Theorem equals_records_unless_idle (now : Z) (p : Page) :
  (forall (pending : string) (r : JS.number),
      operation (state (component p)) = Some pending ->
      truthy (Some pending) = true ->
      (previousValue (state (component p)) =? "") = false ->
      calculate (JS.parseFloat (previousValue (state (component p))))
                (JS.parseFloat (currentValue (state (component p)))) pending
      = ret r ->
      exists p' : Page,
        handlePage now PressEquals p
        = ([AddToHistory
              (previousValue (state (component p)) ++ " "
                 ++ getOperationSymbol pending ++ " "
                 ++ currentValue (state (component p)))
              (JS.toString r);
            SetPreviousCalculation ""; SetError None], Normal p')
        /\ state (component p')
           = {| currentValue := JS.toString r;
                previousValue := "";
                operation := None;
                memory := memory (state (component p));
                history :=
                  if idle p then history (state (component p))
                  else {| calculation :=
                            previousValue (state (component p)) ++ " "
                              ++ getOperationSymbol pending ++ " "
                              ++ currentValue (state (component p));
                          result := JS.toString r;
                          timestamp := now |}
                         :: firstn 49 (history (state (component p)));
                waitingForNewValue := true |}
        /\ error (component p') = None)
  /\ (truthy (operation (state (component p))) = false
      \/ previousValue (state (component p)) = "" ->
      handlePage now PressEquals p
      = ([], Normal {| component := component p; idle := true |})).
Proof.
  split.
  - intros pending r Hop Ht Hp Hc.
    pose proof (calculate_ret_no_division_by_zero _ _ _ _ Hc) as Hz.
    unfold handlePage. cbn [callsNothing returnsPrev].
    rewrite Hop, Ht, Hp. cbn [negb andb]. rewrite Hz. cbn [negb].
    rewrite andb_true_r.
    destruct (idle p); cbn [handleIn setStateIn];
      unfold setStateEager, setState, handleEquals;
      rewrite Hop, Ht, Hp, Hc; cbn;
      eexists; (split; [reflexivity|]); split; reflexivity.
  - intros H.
    assert (Hr : returnsPrev PressEquals (state (component p)) = true).
    { cbn [returnsPrev].
      destruct (operation (state (component p))) as [pending|]; [|reflexivity].
      destruct H as [H| ->].
      - rewrite H. reflexivity.
      - rewrite andb_false_r. reflexivity. }
    assert (Hh : handle now PressEquals (component p)
                 = ([], Normal (component p))).
    { cbn [handle]. unfold setState, handleEquals.
      destruct (operation (state (component p))) as [pending|].
      - destruct H as [H| ->].
        + rewrite H. cbn. rewrite with_state_same. reflexivity.
        + rewrite andb_false_r. cbn. rewrite with_state_same. reflexivity.
      - cbn. rewrite with_state_same. reflexivity. }
    unfold handlePage. cbn [callsNothing].
    rewrite Hr, andb_false_r, handleIn_false, Hh.
    cbn. rewrite (cellsChanged_same PressEquals (component p) Hr).
    reflexivity.
Qed.

(** [8 * 2 .] and a second point lead to [page_8_times_2_point]. *)
Lemma page_after_8_times_2_point_point :
  reachablePage page_8_times_2_point.
Proof.
  apply (runPage_reachable (at_times 0 keys_8_times_2_point_point) mounted _
           [SetPreviousCalculation "8 Ã—"]).
  - apply reachablePage_mounted.
  - vm_compute. reflexivity.
  - vm_compute. reflexivity.
Qed.

Lemma equals_records_unless_idle_8_times_2 :
  exists p' : Page,
    handlePage 5 PressEquals page_8_times_2_point
    = ([AddToHistory "8 Ã— 2." "16"; SetPreviousCalculation "";
        SetError None], Normal p')
    /\ state (component p')
       = {| currentValue := "16"; previousValue := ""; operation := None;
            memory := JS.of_Z 0; history := []; waitingForNewValue := true |}
    /\ error (component p') = None.
Proof.
  apply (proj1 (equals_records_unless_idle 5 page_8_times_2_point)
               "*" (JS.of_Z 16)).
  - reflexivity.
  - reflexivity.
  - reflexivity.
  - vm_compute. reflexivity.
Defined.

(* ------------------------------------------------------------------ *)
(** ** Square root on the page *)

(** C7: the square root of a negative display raises one error, "Invalid
    input", and leaves the whole calculator state as it was.  Of a
    non-negative display it shows the root, calls [addToHistory], waits for
    a new value and leaves [previousValue] and [operation] alone; but the
    item gets into the history only when the page is not idle: on an idle
    page (the first event after the mount, say) the history stays as it was
    and the item is lost. *)
Theorem square_root_records_unless_idle (now : Z) (p : Page) :
  (JS.lt (JS.parseFloat (currentValue (state (component p)))) (JS.of_Z 0)
   = true ->
   exists p' : Page,
     handlePage now (PressAdvanced "square-root") p
       = ([ShowError "Invalid input"], Normal p')
     /\ state (component p') = state (component p)
     /\ error (component p') = Some "Invalid input")
  /\ (JS.le (JS.of_Z 0) (JS.parseFloat (currentValue (state (component p))))
      = true ->
      exists p' : Page,
        handlePage now (PressAdvanced "square-root") p
        = ([AddToHistory
              ("âˆš" ++ JS.toString
                        (JS.parseFloat (currentValue (state (component p)))))
              (JS.toString
                 (JS.sqrt
                    (JS.parseFloat (currentValue (state (component p))))));
            SetError None], Normal p')
        /\ state (component p')
           = {| currentValue :=
                  JS.toString
                    (JS.sqrt
                       (JS.parseFloat (currentValue (state (component p)))));
                previousValue := previousValue (state (component p));
                operation := operation (state (component p));
                memory := memory (state (component p));
                history :=
                  if idle p then history (state (component p))
                  else {| calculation :=
                            "âˆš" ++ JS.toString
                                      (JS.parseFloat
                                         (currentValue (state (component p))));
                          result :=
                            JS.toString
                              (JS.sqrt
                                 (JS.parseFloat
                                    (currentValue (state (component p)))));
                          timestamp := now |}
                         :: firstn 49 (history (state (component p)));
                waitingForNewValue := true |}
        /\ error (component p') = None).
Proof.
  split.
  - intros H.
    unfold handlePage. cbn [callsNothing returnsPrev String.eqb Ascii.eqb
                              Bool.eqb].
    rewrite H. cbn [negb]. rewrite andb_false_r.
    cbn [handleIn setStateIn]. unfold setState, handleAdvancedOperation.
    cbn. rewrite H. cbn.
    eexists. split; [reflexivity|]. split; reflexivity.
  - intros H. apply le_zero_not_lt in H.
    unfold handlePage. cbn [callsNothing returnsPrev String.eqb Ascii.eqb
                              Bool.eqb].
    rewrite H. cbn [negb]. rewrite andb_true_r.
    destruct (idle p); cbn [handleIn setStateIn];
      unfold setStateEager, setState, handleAdvancedOperation;
      cbn; rewrite H; cbn;
      eexists; (split; [reflexivity|]); split; reflexivity.
Qed.

Lemma square_root_records_unless_idle_examples :
  (exists p' : Page,
      handlePage 7 (PressAdvanced "square-root")
        {| component :=
             with_state initialComponent (with_currentValue "-4" initialState);
           idle := false |}
      = ([ShowError "Invalid input"], Normal p')
      /\ state (component p') = with_currentValue "-4" initialState
      /\ error (component p') = Some "Invalid input")
  /\ (exists p' : Page,
        handlePage 7 (PressAdvanced "square-root") mounted
        = ([AddToHistory "âˆš0" "0"; SetError None], Normal p')
        /\ state (component p')
           = {| currentValue := "0"; previousValue := ""; operation := None;
                memory := JS.of_Z 0; history := [];
                waitingForNewValue := true |}
        /\ error (component p') = None).
Proof.
  split.
  - apply (proj1 (square_root_records_unless_idle 7
             {| component :=
                  with_state initialComponent
                    (with_currentValue "-4" initialState);
                idle := false |})).
    vm_compute. reflexivity.
  - apply (proj2 (square_root_records_unless_idle 7 mounted)).
    vm_compute. reflexivity.
Defined.

(* ------------------------------------------------------------------ *)
(** ** The history on the page *)

(** On an idle page no event adds to the history. *)
Lemma idle_page_adds_nothing (now : Z) (ev : event) (p p' : Page)
    (log : list call) :
  idle p = true ->
  ev <> PressClearHistory ->
  handlePage now ev p = (log, Normal p') ->
  history (state (component p')) = history (state (component p)).
Proof.
  intros Hi Hev H.
  destruct (handlePage_Normal now ev p p' log H) as [(_ & -> & _)|(_ & Hh)];
    [reflexivity|].
  rewrite Hi in Hh. cbn [andb] in Hh.
  destruct (returnsPrev ev (state (component p))) eqn:Hr; cbn [negb] in Hh.
  - rewrite handleIn_false in Hh.
    rewrite (returnsPrev_sound now ev _ _ log Hr Hh). reflexivity.
  - destruct ev; cbn [handleIn setStateIn] in Hh; try discriminate Hr;
      try congruence;
      try (apply setStateEager_Normal in Hh; updater_cases Hh;
           first [reflexivity
                 |match goal with E : _ = state (component p') |- _ =>
                    rewrite <- E; reflexivity end]).
    + unfold bind, setStateEager, handleClear, call_setter, ret in Hh.
      cbn in Hh. inversion Hh.
      first [reflexivity
            |match goal with E : _ = component p' |- _ =>
               rewrite <- E; reflexivity end].
    + destruct (nth_error (history (state (component p))) index);
        [|inversion Hh;
          first [reflexivity
                |match goal with E : _ = component p' |- _ =>
                   rewrite <- E; reflexivity end]].
      apply setStateEager_Normal in Hh. updater_cases Hh. reflexivity.
Qed.

(** C4: the updater of [addToHistory] puts the new item in front and
    cuts the history after 50 items, and so does any run of such updates;
    on every page the mounted component gets to, the history has at most 50
    items.  But the history does not hold the most recent results: on an
    idle page no event adds to it, so a result shown right after the mount,
    or right after an event that changed nothing, is not recorded.  The
    square key on the mounted page leaves the history empty, and 60 results
    in a row, each right after a second point ([1 + 1 . . =], 60 times),
    leave no entry at all, not 50; 60 results with no idle page in between
    ([1 + 1 =], then [+ 1 =] 59 times) leave the last 50, the newest
    first. *)
Theorem history_misses_results_on_idle_pages :
  (forall (item : HistoryItem) (items : list HistoryItem)
          (st : CalculatorState),
      history (addToHistory item st) = firstn 50 (item :: history st)
      /\ history (addAllToHistory (item :: items) st)
         = firstn 50 (rev (item :: items) ++ history st))
  /\ (forall p : Page,
        reachablePage p ->
        (List.length (history (state (component p))) <= 50)%nat)
  /\ (forall (now : Z) (ev : event) (p p' : Page) (log : list call),
        idle p = true ->
        ev <> PressClearHistory ->
        handlePage now ev p = (log, Normal p') ->
        history (state (component p')) = history (state (component p)))
  /\ (exists (log : list call) (p : Page),
        runPage (at_times 0 (keys_idle_rounds 60)) mounted = (log, Normal p)
        /\ offeredPage (at_times 0 (keys_idle_rounds 60)) mounted = true
        /\ List.length (filter is_AddToHistory log) = 60%nat
        /\ history (state (component p)) = [])
  /\ (exists (log : list call) (p : Page),
        runPage (at_times 0 (keys_count_up 59)) mounted = (log, Normal p)
        /\ List.length (filter is_AddToHistory log) = 60%nat
        /\ map result (history (state (component p)))
           = count_down_texts 50 61).
Proof.
  split; [|split; [|split; [|split]]].
  - intros item items st. split.
    + apply addToHistory_history.
    + apply addAllToHistory_history.
  - intros p H. apply (inv_bound _ (reachablePage_inv p H)).
  - exact idle_page_adds_nothing.
  - eexists. eexists. split; [vm_compute; reflexivity|].
    split; [vm_compute; reflexivity|]. split; reflexivity.
  - eexists. eexists. split; [vm_compute; reflexivity|].
    split; reflexivity.
Qed.

Lemma history_misses_results_on_idle_pages_square :
  exists p' : Page,
    handlePage 0 (PressAdvanced "square") mounted
    = ([AddToHistory "0Â²" "0"; SetError None], Normal p')
    /\ currentValue (state (component p')) = "0"
    /\ history (state (component p')) = [].
Proof.
  eexists. split; [reflexivity|]. split; [reflexivity|].
  apply (proj1 (proj2 (proj2 history_misses_results_on_idle_pages))
           0%Z (PressAdvanced "square") mounted _
           [AddToHistory "0Â²" "0"; SetError None]).
  - reflexivity.
  - discriminate.
  - reflexivity.
Defined.

(* ------------------------------------------------------------------ *)
(** ** Percentage and square on the page *)

(** X11: percentage and square cannot fail, whatever the display reads:
    they show [current / 100] or [current * current], call [addToHistory],
    clear the error message, wait for a new value and leave the pending
    operation, its operand and the memory alone.  The item gets into the
    history, in front, when the page is not idle; on an idle page the
    history stays as it was. *)
Theorem percentage_and_square_on_page (now : Z) (p : Page) :
  exists p1 p2 : Page,
    handlePage now (PressAdvanced "percentage") p
      = ([AddToHistory
            (JS.toString (JS.parseFloat (currentValue (state (component p))))
               ++ "%")
            (JS.toString
               (JS.div (JS.parseFloat (currentValue (state (component p))))
                       (JS.of_Z 100)));
          SetError None], Normal p1)
    /\ state (component p1)
       = {| currentValue :=
              JS.toString
                (JS.div (JS.parseFloat (currentValue (state (component p))))
                        (JS.of_Z 100));
            previousValue := previousValue (state (component p));
            operation := operation (state (component p));
            memory := memory (state (component p));
            history :=
              if idle p then history (state (component p))
              else {| calculation :=
                        JS.toString
                          (JS.parseFloat (currentValue (state (component p))))
                          ++ "%";
                      result :=
                        JS.toString
                          (JS.div
                             (JS.parseFloat
                                (currentValue (state (component p))))
                             (JS.of_Z 100));
                      timestamp := now |}
                     :: firstn 49 (history (state (component p)));
            waitingForNewValue := true |}
    /\ error (component p1) = None
    /\ handlePage now (PressAdvanced "square") p
       = ([AddToHistory
             (JS.toString (JS.parseFloat (currentValue (state (component p))))
                ++ "Â²")
             (JS.toString
                (JS.mul (JS.parseFloat (currentValue (state (component p))))
                        (JS.parseFloat (currentValue (state (component p))))));
           SetError None], Normal p2)
    /\ state (component p2)
       = {| currentValue :=
              JS.toString
                (JS.mul (JS.parseFloat (currentValue (state (component p))))
                        (JS.parseFloat (currentValue (state (component p)))));
            previousValue := previousValue (state (component p));
            operation := operation (state (component p));
            memory := memory (state (component p));
            history :=
              if idle p then history (state (component p))
              else {| calculation :=
                        JS.toString
                          (JS.parseFloat (currentValue (state (component p))))
                          ++ "Â²";
                      result :=
                        JS.toString
                          (JS.mul
                             (JS.parseFloat
                                (currentValue (state (component p))))
                             (JS.parseFloat
                                (currentValue (state (component p)))));
                      timestamp := now |}
                     :: firstn 49 (history (state (component p)));
            waitingForNewValue := true |}
    /\ error (component p2) = None.
Proof.
  unfold handlePage. cbn [callsNothing returnsPrev String.eqb Ascii.eqb
                            Bool.eqb negb].
  rewrite andb_true_r.
  destruct (idle p); cbn [handleIn setStateIn];
    unfold setStateEager, setState, handleAdvancedOperation; cbn;
    eexists; eexists;
    (split; [reflexivity|]); (split; [reflexivity|]);
    (split; [reflexivity|]); (split; [reflexivity|]); split; reflexivity.
Qed.

(* ------------------------------------------------------------------ *)
(** ** History items on the page *)

(** [9] and the square key lead to [page_9_squared]. *)
Lemma page_after_9_squared : reachablePage page_9_squared.
Proof.
  apply (runPage_reachable
           (at_times 0 [PressNumber "9"; PressAdvanced "square"]) mounted _
           [AddToHistory "9Â²" "81"; SetError None]).
  - apply reachablePage_mounted.
  - vm_compute. reflexivity.
  - vm_compute. reflexivity.
Qed.

(** X12: on every page the mounted component gets to, the result of each
    history item is text that [parseFloat] reads a number from, unless it
    is ["NaN"]; and a click on the item puts that text on the display, to be
    replaced by the next digit, and changes nothing else of the state. *)
Theorem history_items_parse_and_recall (now : Z) (p : Page) (index : nat)
    (item : HistoryItem) :
  reachablePage p ->
  nth_error (history (state (component p))) index = Some item ->
  (JS.isNaN (JS.parseFloat (result item)) = false \/ result item = "NaN")
  /\ exists p' : Page,
      handlePage now (ClickHistoryItem index) p = ([], Normal p')
      /\ state (component p')
         = {| currentValue := result item;
              previousValue := previousValue (state (component p));
              operation := operation (state (component p));
              memory := memory (state (component p));
              history := history (state (component p));
              waitingForNewValue := true |}.
Proof.
  intros Hp Hn. split.
  - pose proof (inv_history _ (reachablePage_inv p Hp)) as Hh.
    rewrite Forall_forall in Hh.
    destruct (Hh item (nth_error_In _ _ Hn)) as [x ->].
    apply JSFacts.parseFloat_toString.
  - unfold handlePage. cbn [callsNothing returnsPrev negb].
    rewrite Hn, andb_true_r.
    destruct (idle p); cbn [handleIn setStateIn]; rewrite Hn;
      unfold setStateEager, setState, selectHistoryItem; cbn;
      eexists; split; reflexivity.
Qed.

Lemma history_items_parse_and_recall_81 :
  (JS.isNaN (JS.parseFloat "81") = false \/ "81" = "NaN")
  /\ exists p' : Page,
      handlePage 5 (ClickHistoryItem 0) page_9_squared = ([], Normal p')
      /\ state (component p')
         = {| currentValue := "81"; previousValue := ""; operation := None;
              memory := JS.of_Z 0;
              history := [{| calculation := "9Â²"; result := "81";
                             timestamp := 1 |}];
              waitingForNewValue := true |}.
Proof.
  apply (history_items_parse_and_recall 5 page_9_squared 0
           {| calculation := "9Â²"; result := "81"; timestamp := 1 |}).
  - apply page_after_9_squared.
  - reflexivity.
Defined.
